(** * The rosbag_io bag format engine: a shallow embedding

    The development follows [rosbag_io/rosbag/bag.h] (the templated write and
    read paths [Bag::doWrite], [Bag::writeMessageDataRecord],
    [Bag::readMessageDataIntoStream], [Bag::instantiateBuffer]) and
    [rosbag_io/rosbag/message_instance.h] ([MessageInstance::isType],
    [MessageInstance::instantiate]).

    The engine is a C++ class with mutable members; it is embedded as a record
    [Bag] threaded through a state-and-exception monad [M]: a C++ exception
    leaves the members as they were when it was thrown, so a computation
    returns its outcome together with the state it reached.

    The model covers the engine in its default configuration: chunks are
    written with the [none] codec and the no-op encryptor. *)

From Stdlib Require Import ZArith Lia List Ascii String.
From stdpp Require Import gmap strings list fin_maps pretty sorting.

Open Scope Z_scope.

(** ** Machine integers and byte strings *)

(** [std::string], [char] buffers and file contents are sequences of 8-bit
    characters. *)
Abbreviation bytes := (list ascii) (only parsing).

Definition str (s : string) : list ascii := list_ascii_of_string s.

(** [uint32_t] and [uint64_t] arithmetic wraps around. *)
Definition wrap32 (x : Z) : Z := x mod 2 ^ 32.
Definition wrap64 (x : Z) : Z := x mod 2 ^ 64.

Definition byte_of_Z (x : Z) : ascii := ascii_of_N (Z.to_N (x mod 256)).
Definition Z_of_byte (a : ascii) : Z := Z.of_N (N_of_ascii a).

(** The memory image of an [n]-byte unsigned integer on a little-endian
    host, and its inverse ([memcpy] into an integer). *)
Fixpoint le_bytes (n : nat) (x : Z) : list ascii :=
  match n with
  | O => []
  | S n' => byte_of_Z x :: le_bytes n' (x / 256)
  end.

Fixpoint le_value (bs : list ascii) : Z :=
  match bs with
  | [] => 0
  | c :: bs' => Z_of_byte c + 256 * le_value bs'
  end.

(** ** ros::Time *)

Record Time := mkTime { sec : Z; nsec : Z }.

(** Modelled from the spec: the comparison operators of [TimeBase] are
    declared in [ros/time.h] and defined in an implementation header that is
    not part of the sources; a time is the pair [(sec, nsec)] and is ordered
    as such. *)
Definition Time_ltb (a b : Time) : bool :=
  (sec a <? sec b) || ((sec a =? sec b) && (nsec a <? nsec b)).

Definition Time_gtb (a b : Time) : bool := Time_ltb b a.
Definition Time_leb (a b : Time) : bool := negb (Time_ltb b a).

(** Modelled from the spec: [TIME_MIN = (0,1)]; [TIME_MAX] is the spec's
    [+∞], the largest normalised time. *)
Definition TIME_MIN : Time := mkTime 0 1.
Definition TIME_MAX : Time := mkTime (2 ^ 32 - 1) 999999999.

(** ** Exceptions and the engine monad *)

Inductive exn : Type :=
  | BagException (msg : string)
  | BagIOException (msg : string)
  | BagFormatException (msg : string)
  | BagUnindexedException.

Inductive outcome (A : Type) : Type :=
  | Ok (a : A)
  | Throw (e : exn).
Arguments Ok {A} a.
Arguments Throw {A} e.

(** ** Structures (rosbag/structures.h)

    Modelled from the spec: [structures.h] is not part of the sources; the
    fields are those of the spec's data model, under the names the engine
    uses for them in [bag.h]. *)

Module ConnectionInfo.
Record t := mk {
  id : Z;
  topic : list ascii;
  datatype : list ascii;
  md5sum : list ascii;
  msg_def : list ascii;
  header : gmap (list ascii) (list ascii)
}.
End ConnectionInfo.
Abbreviation ConnectionInfo := ConnectionInfo.t.

Module ChunkInfo.
Record t := mk {
  start_time : Time;
  end_time : Time;
  pos : Z;
  connection_counts : gmap Z Z
}.
End ChunkInfo.
Abbreviation ChunkInfo := ChunkInfo.t.

Module ChunkHeader.
Record t := mk {
  compression : list ascii;
  compressed_size : Z;
  uncompressed_size : Z
}.
End ChunkHeader.
Abbreviation ChunkHeader := ChunkHeader.t.

Module IndexEntry.
Record t := mk {
  time : Time;
  chunk_pos : Z;
  offset : Z
}.

(** Modelled from the spec: the ordering key of an index entry is
    [(time, chunk_pos, offset)]. *)
Definition ltb (a b : t) : bool :=
  Time_ltb (time a) (time b)
  || (negb (Time_ltb (time b) (time a))
      && ((chunk_pos a <? chunk_pos b)
          || ((chunk_pos a =? chunk_pos b) && (offset a <? offset b)))).

Definition leb (a b : t) : bool := negb (ltb b a).
End IndexEntry.
Abbreviation IndexEntry := IndexEntry.t.

Definition Time_le (a b : Time) : Prop := Time_leb a b = true.
Definition IndexEntry_le (a b : IndexEntry) : Prop := IndexEntry.leb a b = true.

(** [std::multiset<IndexEntry>] as the sorted sequence of its elements.
    [insert(end(), x)] puts [x] as close to the end as the order allows:
    behind every element that is not greater than [x]. *)
Fixpoint mset_insert (x : IndexEntry) (l : list IndexEntry) : list IndexEntry :=
  match l with
  | [] => [x]
  | y :: l' => if IndexEntry.ltb x y then x :: l else y :: mset_insert x l'
  end.

Inductive BagMode : Type := Write | Read | Append.

Global Instance BagMode_eq_dec : EqDecision BagMode.
Proof. solve_decision. Defined.

(** ** ChunkedFile

    Modelled from the spec: [chunked_file.h] is not part of the sources.  The
    file is its contents and a position; [setWriteMode] starts the write
    stream of a chunk and [stopWrite] ends it, returning the compressed and
    uncompressed sizes (equal for the [none] codec, which streams the bytes
    to the file as they come). *)

Record ChunkedFile := mkChunkedFile {
  cf_open : bool;
  cf_contents : list ascii;
  cf_offset : nat;
  cf_stream_start : option nat
}.

Inductive seekdir : Type := ios_beg | ios_cur | ios_end.

Definition ChunkedFile_getOffset (f : ChunkedFile) : Z :=
  wrap64 (Z.of_nat (cf_offset f)).

(** Writing at a position overwrites what is there and extends the file at
    its end; a gap past the end reads as zeros. *)
Definition write_at (contents : list ascii) (at_ : nat) (bs : list ascii) : list ascii :=
  take at_ contents ++ replicate (at_ - length contents) zero
    ++ bs ++ drop (at_ + length bs) contents.

Definition ChunkedFile_write (bs : list ascii) (f : ChunkedFile) : outcome ChunkedFile :=
  if cf_open f
  then Ok (mkChunkedFile true (write_at (cf_contents f) (cf_offset f) bs)
             (cf_offset f + length bs) (cf_stream_start f))
  else Throw (BagIOException "Can't write - file not open").

Definition ChunkedFile_seek (p : Z) (origin : seekdir) (f : ChunkedFile)
  : outcome ChunkedFile :=
  if cf_open f
  then
    let base :=
      match origin with
      | ios_beg => 0
      | ios_cur => Z.of_nat (cf_offset f)
      | ios_end => Z.of_nat (length (cf_contents f))
      end in
    Ok (mkChunkedFile true (cf_contents f) (Z.to_nat (base + p)) (cf_stream_start f))
  else Throw (BagIOException "Can't seek - file not open").

Definition ChunkedFile_read (n : Z) (f : ChunkedFile)
  : outcome (list ascii * ChunkedFile) :=
  if cf_open f
  then
    let got := take (Z.to_nat n) (drop (cf_offset f) (cf_contents f)) in
    if (Z.of_nat (length got) <? n)
    then Throw (BagIOException "Error reading from file")
    else Ok (got, mkChunkedFile true (cf_contents f)
                    (cf_offset f + Z.to_nat n) (cf_stream_start f))
  else Throw (BagIOException "Can't read - file not open").

Definition ChunkedFile_setWriteMode (f : ChunkedFile) : ChunkedFile :=
  mkChunkedFile (cf_open f) (cf_contents f) (cf_offset f) (Some (cf_offset f)).

Definition ChunkedFile_stopWrite (f : ChunkedFile) : (Z * Z) * ChunkedFile :=
  let n :=
    match cf_stream_start f with
    | Some s => wrap32 (Z.of_nat (cf_offset f) - Z.of_nat s)
    | None => 0
    end in
  ((n, n), mkChunkedFile (cf_open f) (cf_contents f) (cf_offset f) None).

Definition ChunkedFile_close (f : ChunkedFile) : ChunkedFile :=
  mkChunkedFile false (cf_contents f) 0 None.

(** ** Buffer

    Modelled from the spec: [buffer.h] only declares the class.  A buffer is
    its [size] bytes; [setSize] keeps the bytes that stay in range, and a
    [memcpy] into the buffer overwrites a range of it. *)

Definition Buffer_getSize (buf : list ascii) : Z := wrap32 (Z.of_nat (length buf)).

Definition Buffer_setSize (n : Z) (buf : list ascii) : list ascii :=
  take (Z.to_nat n) buf ++ replicate (Z.to_nat n - length buf) zero.

Definition memcpy (dst : list ascii) (at_ : Z) (src : list ascii) (n : Z) : list ascii :=
  take (Z.to_nat at_) dst ++ take (Z.to_nat n) src
    ++ drop (Z.to_nat at_ + Z.to_nat n) dst.

(** ** The engine state *)

Record Bag := mkBag {
  mode_ : BagMode;
  file_ : ChunkedFile;
  version_ : Z;
  chunk_threshold_ : Z;
  bag_revision_ : Z;
  file_size_ : Z;
  file_header_pos_ : Z;
  index_data_pos_ : Z;
  connection_count_ : Z;
  chunk_count_ : Z;
  chunk_open_ : bool;
  curr_chunk_info_ : ChunkInfo;
  curr_chunk_data_pos_ : Z;
  topic_connection_ids_ : gmap (list ascii) Z;
  header_connection_ids_ : gmap (gmap (list ascii) (list ascii)) Z;
  connections_ : gmap Z (option ConnectionInfo);
  chunks_ : list ChunkInfo;
  connection_indexes_ : gmap Z (list IndexEntry);
  curr_chunk_connection_indexes_ : gmap Z (list IndexEntry);
  record_buffer_ : list ascii;
  decompress_buffer_ : list ascii;
  outgoing_chunk_buffer_ : list ascii;
  decompressed_chunk_ : Z
}.

Definition set_mode_ (v : BagMode) (b : Bag) : Bag :=
  mkBag v (file_ b) (version_ b) (chunk_threshold_ b) (bag_revision_ b)
    (file_size_ b) (file_header_pos_ b) (index_data_pos_ b)
    (connection_count_ b) (chunk_count_ b) (chunk_open_ b)
    (curr_chunk_info_ b) (curr_chunk_data_pos_ b) (topic_connection_ids_ b)
    (header_connection_ids_ b) (connections_ b) (chunks_ b)
    (connection_indexes_ b) (curr_chunk_connection_indexes_ b)
    (record_buffer_ b) (decompress_buffer_ b) (outgoing_chunk_buffer_ b)
    (decompressed_chunk_ b).
Definition set_file_ (v : ChunkedFile) (b : Bag) : Bag :=
  mkBag (mode_ b) v (version_ b) (chunk_threshold_ b) (bag_revision_ b)
    (file_size_ b) (file_header_pos_ b) (index_data_pos_ b)
    (connection_count_ b) (chunk_count_ b) (chunk_open_ b)
    (curr_chunk_info_ b) (curr_chunk_data_pos_ b) (topic_connection_ids_ b)
    (header_connection_ids_ b) (connections_ b) (chunks_ b)
    (connection_indexes_ b) (curr_chunk_connection_indexes_ b)
    (record_buffer_ b) (decompress_buffer_ b) (outgoing_chunk_buffer_ b)
    (decompressed_chunk_ b).
Definition set_version_ (v : Z) (b : Bag) : Bag :=
  mkBag (mode_ b) (file_ b) v (chunk_threshold_ b) (bag_revision_ b)
    (file_size_ b) (file_header_pos_ b) (index_data_pos_ b)
    (connection_count_ b) (chunk_count_ b) (chunk_open_ b)
    (curr_chunk_info_ b) (curr_chunk_data_pos_ b) (topic_connection_ids_ b)
    (header_connection_ids_ b) (connections_ b) (chunks_ b)
    (connection_indexes_ b) (curr_chunk_connection_indexes_ b)
    (record_buffer_ b) (decompress_buffer_ b) (outgoing_chunk_buffer_ b)
    (decompressed_chunk_ b).
Definition set_chunk_threshold_ (v : Z) (b : Bag) : Bag :=
  mkBag (mode_ b) (file_ b) (version_ b) v (bag_revision_ b) (file_size_ b)
    (file_header_pos_ b) (index_data_pos_ b) (connection_count_ b)
    (chunk_count_ b) (chunk_open_ b) (curr_chunk_info_ b)
    (curr_chunk_data_pos_ b) (topic_connection_ids_ b)
    (header_connection_ids_ b) (connections_ b) (chunks_ b)
    (connection_indexes_ b) (curr_chunk_connection_indexes_ b)
    (record_buffer_ b) (decompress_buffer_ b) (outgoing_chunk_buffer_ b)
    (decompressed_chunk_ b).
Definition set_bag_revision_ (v : Z) (b : Bag) : Bag :=
  mkBag (mode_ b) (file_ b) (version_ b) (chunk_threshold_ b) v (file_size_ b)
    (file_header_pos_ b) (index_data_pos_ b) (connection_count_ b)
    (chunk_count_ b) (chunk_open_ b) (curr_chunk_info_ b)
    (curr_chunk_data_pos_ b) (topic_connection_ids_ b)
    (header_connection_ids_ b) (connections_ b) (chunks_ b)
    (connection_indexes_ b) (curr_chunk_connection_indexes_ b)
    (record_buffer_ b) (decompress_buffer_ b) (outgoing_chunk_buffer_ b)
    (decompressed_chunk_ b).
Definition set_file_size_ (v : Z) (b : Bag) : Bag :=
  mkBag (mode_ b) (file_ b) (version_ b) (chunk_threshold_ b)
    (bag_revision_ b) v (file_header_pos_ b) (index_data_pos_ b)
    (connection_count_ b) (chunk_count_ b) (chunk_open_ b)
    (curr_chunk_info_ b) (curr_chunk_data_pos_ b) (topic_connection_ids_ b)
    (header_connection_ids_ b) (connections_ b) (chunks_ b)
    (connection_indexes_ b) (curr_chunk_connection_indexes_ b)
    (record_buffer_ b) (decompress_buffer_ b) (outgoing_chunk_buffer_ b)
    (decompressed_chunk_ b).
Definition set_file_header_pos_ (v : Z) (b : Bag) : Bag :=
  mkBag (mode_ b) (file_ b) (version_ b) (chunk_threshold_ b)
    (bag_revision_ b) (file_size_ b) v (index_data_pos_ b)
    (connection_count_ b) (chunk_count_ b) (chunk_open_ b)
    (curr_chunk_info_ b) (curr_chunk_data_pos_ b) (topic_connection_ids_ b)
    (header_connection_ids_ b) (connections_ b) (chunks_ b)
    (connection_indexes_ b) (curr_chunk_connection_indexes_ b)
    (record_buffer_ b) (decompress_buffer_ b) (outgoing_chunk_buffer_ b)
    (decompressed_chunk_ b).
Definition set_index_data_pos_ (v : Z) (b : Bag) : Bag :=
  mkBag (mode_ b) (file_ b) (version_ b) (chunk_threshold_ b)
    (bag_revision_ b) (file_size_ b) (file_header_pos_ b) v
    (connection_count_ b) (chunk_count_ b) (chunk_open_ b)
    (curr_chunk_info_ b) (curr_chunk_data_pos_ b) (topic_connection_ids_ b)
    (header_connection_ids_ b) (connections_ b) (chunks_ b)
    (connection_indexes_ b) (curr_chunk_connection_indexes_ b)
    (record_buffer_ b) (decompress_buffer_ b) (outgoing_chunk_buffer_ b)
    (decompressed_chunk_ b).
Definition set_connection_count_ (v : Z) (b : Bag) : Bag :=
  mkBag (mode_ b) (file_ b) (version_ b) (chunk_threshold_ b)
    (bag_revision_ b) (file_size_ b) (file_header_pos_ b) (index_data_pos_ b)
    v (chunk_count_ b) (chunk_open_ b) (curr_chunk_info_ b)
    (curr_chunk_data_pos_ b) (topic_connection_ids_ b)
    (header_connection_ids_ b) (connections_ b) (chunks_ b)
    (connection_indexes_ b) (curr_chunk_connection_indexes_ b)
    (record_buffer_ b) (decompress_buffer_ b) (outgoing_chunk_buffer_ b)
    (decompressed_chunk_ b).
Definition set_chunk_count_ (v : Z) (b : Bag) : Bag :=
  mkBag (mode_ b) (file_ b) (version_ b) (chunk_threshold_ b)
    (bag_revision_ b) (file_size_ b) (file_header_pos_ b) (index_data_pos_ b)
    (connection_count_ b) v (chunk_open_ b) (curr_chunk_info_ b)
    (curr_chunk_data_pos_ b) (topic_connection_ids_ b)
    (header_connection_ids_ b) (connections_ b) (chunks_ b)
    (connection_indexes_ b) (curr_chunk_connection_indexes_ b)
    (record_buffer_ b) (decompress_buffer_ b) (outgoing_chunk_buffer_ b)
    (decompressed_chunk_ b).
Definition set_chunk_open_ (v : bool) (b : Bag) : Bag :=
  mkBag (mode_ b) (file_ b) (version_ b) (chunk_threshold_ b)
    (bag_revision_ b) (file_size_ b) (file_header_pos_ b) (index_data_pos_ b)
    (connection_count_ b) (chunk_count_ b) v (curr_chunk_info_ b)
    (curr_chunk_data_pos_ b) (topic_connection_ids_ b)
    (header_connection_ids_ b) (connections_ b) (chunks_ b)
    (connection_indexes_ b) (curr_chunk_connection_indexes_ b)
    (record_buffer_ b) (decompress_buffer_ b) (outgoing_chunk_buffer_ b)
    (decompressed_chunk_ b).
Definition set_curr_chunk_info_ (v : ChunkInfo) (b : Bag) : Bag :=
  mkBag (mode_ b) (file_ b) (version_ b) (chunk_threshold_ b)
    (bag_revision_ b) (file_size_ b) (file_header_pos_ b) (index_data_pos_ b)
    (connection_count_ b) (chunk_count_ b) (chunk_open_ b) v
    (curr_chunk_data_pos_ b) (topic_connection_ids_ b)
    (header_connection_ids_ b) (connections_ b) (chunks_ b)
    (connection_indexes_ b) (curr_chunk_connection_indexes_ b)
    (record_buffer_ b) (decompress_buffer_ b) (outgoing_chunk_buffer_ b)
    (decompressed_chunk_ b).
Definition set_curr_chunk_data_pos_ (v : Z) (b : Bag) : Bag :=
  mkBag (mode_ b) (file_ b) (version_ b) (chunk_threshold_ b)
    (bag_revision_ b) (file_size_ b) (file_header_pos_ b) (index_data_pos_ b)
    (connection_count_ b) (chunk_count_ b) (chunk_open_ b)
    (curr_chunk_info_ b) v (topic_connection_ids_ b)
    (header_connection_ids_ b) (connections_ b) (chunks_ b)
    (connection_indexes_ b) (curr_chunk_connection_indexes_ b)
    (record_buffer_ b) (decompress_buffer_ b) (outgoing_chunk_buffer_ b)
    (decompressed_chunk_ b).
Definition set_topic_connection_ids_ (v : gmap (list ascii) Z) (b : Bag) : Bag :=
  mkBag (mode_ b) (file_ b) (version_ b) (chunk_threshold_ b)
    (bag_revision_ b) (file_size_ b) (file_header_pos_ b) (index_data_pos_ b)
    (connection_count_ b) (chunk_count_ b) (chunk_open_ b)
    (curr_chunk_info_ b) (curr_chunk_data_pos_ b) v (header_connection_ids_ b)
    (connections_ b) (chunks_ b) (connection_indexes_ b)
    (curr_chunk_connection_indexes_ b) (record_buffer_ b)
    (decompress_buffer_ b) (outgoing_chunk_buffer_ b) (decompressed_chunk_ b).
Definition set_header_connection_ids_ (v : gmap (gmap (list ascii) (list ascii)) Z) (b : Bag) : Bag :=
  mkBag (mode_ b) (file_ b) (version_ b) (chunk_threshold_ b)
    (bag_revision_ b) (file_size_ b) (file_header_pos_ b) (index_data_pos_ b)
    (connection_count_ b) (chunk_count_ b) (chunk_open_ b)
    (curr_chunk_info_ b) (curr_chunk_data_pos_ b) (topic_connection_ids_ b) v
    (connections_ b) (chunks_ b) (connection_indexes_ b)
    (curr_chunk_connection_indexes_ b) (record_buffer_ b)
    (decompress_buffer_ b) (outgoing_chunk_buffer_ b) (decompressed_chunk_ b).
Definition set_connections_ (v : gmap Z (option ConnectionInfo)) (b : Bag) : Bag :=
  mkBag (mode_ b) (file_ b) (version_ b) (chunk_threshold_ b)
    (bag_revision_ b) (file_size_ b) (file_header_pos_ b) (index_data_pos_ b)
    (connection_count_ b) (chunk_count_ b) (chunk_open_ b)
    (curr_chunk_info_ b) (curr_chunk_data_pos_ b) (topic_connection_ids_ b)
    (header_connection_ids_ b) v (chunks_ b) (connection_indexes_ b)
    (curr_chunk_connection_indexes_ b) (record_buffer_ b)
    (decompress_buffer_ b) (outgoing_chunk_buffer_ b) (decompressed_chunk_ b).
Definition set_chunks_ (v : list ChunkInfo) (b : Bag) : Bag :=
  mkBag (mode_ b) (file_ b) (version_ b) (chunk_threshold_ b)
    (bag_revision_ b) (file_size_ b) (file_header_pos_ b) (index_data_pos_ b)
    (connection_count_ b) (chunk_count_ b) (chunk_open_ b)
    (curr_chunk_info_ b) (curr_chunk_data_pos_ b) (topic_connection_ids_ b)
    (header_connection_ids_ b) (connections_ b) v (connection_indexes_ b)
    (curr_chunk_connection_indexes_ b) (record_buffer_ b)
    (decompress_buffer_ b) (outgoing_chunk_buffer_ b) (decompressed_chunk_ b).
Definition set_connection_indexes_ (v : gmap Z (list IndexEntry)) (b : Bag) : Bag :=
  mkBag (mode_ b) (file_ b) (version_ b) (chunk_threshold_ b)
    (bag_revision_ b) (file_size_ b) (file_header_pos_ b) (index_data_pos_ b)
    (connection_count_ b) (chunk_count_ b) (chunk_open_ b)
    (curr_chunk_info_ b) (curr_chunk_data_pos_ b) (topic_connection_ids_ b)
    (header_connection_ids_ b) (connections_ b) (chunks_ b) v
    (curr_chunk_connection_indexes_ b) (record_buffer_ b)
    (decompress_buffer_ b) (outgoing_chunk_buffer_ b) (decompressed_chunk_ b).
Definition set_curr_chunk_connection_indexes_ (v : gmap Z (list IndexEntry)) (b : Bag) : Bag :=
  mkBag (mode_ b) (file_ b) (version_ b) (chunk_threshold_ b)
    (bag_revision_ b) (file_size_ b) (file_header_pos_ b) (index_data_pos_ b)
    (connection_count_ b) (chunk_count_ b) (chunk_open_ b)
    (curr_chunk_info_ b) (curr_chunk_data_pos_ b) (topic_connection_ids_ b)
    (header_connection_ids_ b) (connections_ b) (chunks_ b)
    (connection_indexes_ b) v (record_buffer_ b) (decompress_buffer_ b)
    (outgoing_chunk_buffer_ b) (decompressed_chunk_ b).
Definition set_record_buffer_ (v : list ascii) (b : Bag) : Bag :=
  mkBag (mode_ b) (file_ b) (version_ b) (chunk_threshold_ b)
    (bag_revision_ b) (file_size_ b) (file_header_pos_ b) (index_data_pos_ b)
    (connection_count_ b) (chunk_count_ b) (chunk_open_ b)
    (curr_chunk_info_ b) (curr_chunk_data_pos_ b) (topic_connection_ids_ b)
    (header_connection_ids_ b) (connections_ b) (chunks_ b)
    (connection_indexes_ b) (curr_chunk_connection_indexes_ b) v
    (decompress_buffer_ b) (outgoing_chunk_buffer_ b) (decompressed_chunk_ b).
Definition set_decompress_buffer_ (v : list ascii) (b : Bag) : Bag :=
  mkBag (mode_ b) (file_ b) (version_ b) (chunk_threshold_ b)
    (bag_revision_ b) (file_size_ b) (file_header_pos_ b) (index_data_pos_ b)
    (connection_count_ b) (chunk_count_ b) (chunk_open_ b)
    (curr_chunk_info_ b) (curr_chunk_data_pos_ b) (topic_connection_ids_ b)
    (header_connection_ids_ b) (connections_ b) (chunks_ b)
    (connection_indexes_ b) (curr_chunk_connection_indexes_ b)
    (record_buffer_ b) v (outgoing_chunk_buffer_ b) (decompressed_chunk_ b).
Definition set_outgoing_chunk_buffer_ (v : list ascii) (b : Bag) : Bag :=
  mkBag (mode_ b) (file_ b) (version_ b) (chunk_threshold_ b)
    (bag_revision_ b) (file_size_ b) (file_header_pos_ b) (index_data_pos_ b)
    (connection_count_ b) (chunk_count_ b) (chunk_open_ b)
    (curr_chunk_info_ b) (curr_chunk_data_pos_ b) (topic_connection_ids_ b)
    (header_connection_ids_ b) (connections_ b) (chunks_ b)
    (connection_indexes_ b) (curr_chunk_connection_indexes_ b)
    (record_buffer_ b) (decompress_buffer_ b) v (decompressed_chunk_ b).
Definition set_decompressed_chunk_ (v : Z) (b : Bag) : Bag :=
  mkBag (mode_ b) (file_ b) (version_ b) (chunk_threshold_ b)
    (bag_revision_ b) (file_size_ b) (file_header_pos_ b) (index_data_pos_ b)
    (connection_count_ b) (chunk_count_ b) (chunk_open_ b)
    (curr_chunk_info_ b) (curr_chunk_data_pos_ b) (topic_connection_ids_ b)
    (header_connection_ids_ b) (connections_ b) (chunks_ b)
    (connection_indexes_ b) (curr_chunk_connection_indexes_ b)
    (record_buffer_ b) (decompress_buffer_ b) (outgoing_chunk_buffer_ b) v.

(** A member function is a computation over the engine state that returns
    a value or throws. *)
Definition M (A : Type) : Type := Bag → outcome A * Bag.

Global Instance M_ret : MRet M := λ A a b, (Ok a, b).

Global Instance M_bind : MBind M := λ A B k m b,
  match m b with
  | (Ok a, b') => k a b'
  | (Throw e, b') => (Throw e, b')
  end.

Definition throw {A : Type} (e : exn) : M A := λ b, (Throw e, b).
Definition gets {A : Type} (f : Bag → A) : M A := λ b, (Ok (f b), b).
Definition modify (f : Bag → Bag) : M unit := λ b, (Ok tt, f b).

(** ** Constants (rosbag/constants.h)

    Modelled from the spec: [constants.h] is not part of the sources; the
    field names and opcodes are those of the spec's external interface. *)

Definition OP_FIELD_NAME : list ascii := str "op".
Definition TOPIC_FIELD_NAME : list ascii := str "topic".
Definition VER_FIELD_NAME : list ascii := str "ver".
Definition COUNT_FIELD_NAME : list ascii := str "count".
Definition INDEX_POS_FIELD_NAME : list ascii := str "index_pos".
Definition CONNECTION_COUNT_FIELD_NAME : list ascii := str "conn_count".
Definition CHUNK_COUNT_FIELD_NAME : list ascii := str "chunk_count".
Definition CONNECTION_FIELD_NAME : list ascii := str "conn".
Definition COMPRESSION_FIELD_NAME : list ascii := str "compression".
Definition SIZE_FIELD_NAME : list ascii := str "size".
Definition TIME_FIELD_NAME : list ascii := str "time".
Definition START_TIME_FIELD_NAME : list ascii := str "start_time".
Definition END_TIME_FIELD_NAME : list ascii := str "end_time".
Definition CHUNK_POS_FIELD_NAME : list ascii := str "chunk_pos".
Definition LATCHING_FIELD_NAME : list ascii := str "latching".
Definition CALLERID_FIELD_NAME : list ascii := str "callerid".

Definition OP_MSG_DATA : Z := 2.
Definition OP_FILE_HEADER : Z := 3.
Definition OP_INDEX_DATA : Z := 4.
Definition OP_CHUNK : Z := 5.
Definition OP_CHUNK_INFO : Z := 6.
Definition OP_CONNECTION : Z := 7.

Definition COMPRESSION_NONE : list ascii := str "none".
Definition INDEX_VERSION : Z := 1.
Definition CHUNK_INFO_VERSION : Z := 1.
Definition FILE_HEADER_LENGTH : Z := 4096.
Definition MAGIC_200 : list ascii := str "#ROSBAG V2.0" ++ ["010"%char].
Definition MAGIC_102 : list ascii := str "#ROSBAG V1.2" ++ ["010"%char].

(** ** Low-level I/O (the engine's [write], [read], [seek]) *)

Definition write (bs : list ascii) : M unit := λ b,
  match ChunkedFile_write bs (file_ b) with
  | Ok f => (Ok tt, set_file_ f b)
  | Throw e => (Throw e, b)
  end.

Definition seek (p : Z) (origin : seekdir) : M unit := λ b,
  match ChunkedFile_seek p origin (file_ b) with
  | Ok f => (Ok tt, set_file_ f b)
  | Throw e => (Throw e, b)
  end.

Definition read (n : Z) : M (list ascii) := λ b,
  match ChunkedFile_read n (file_ b) with
  | Ok (bs, f) => (Ok bs, set_file_ f b)
  | Throw e => (Throw e, b)
  end.

(** ** Record framing

    Modelled from the spec: a record is [u32 header_len], the header fields,
    [u32 data_len] and the data; a field is [u32 field_len] and
    [name=value].  The fields of a [std::map] are emitted in the order the
    map enumerates them. *)

Definition encode_field (kv : list ascii * list ascii) : list ascii :=
  let body := kv.1 ++ "="%char :: kv.2 in
  le_bytes 4 (Z.of_nat (length body)) ++ body.

Definition encode_fields (fields : gmap (list ascii) (list ascii)) : list ascii :=
  concat (encode_field <$> map_to_list fields).

Definition header_bytes (fields : gmap (list ascii) (list ascii)) : list ascii :=
  let fb := encode_fields fields in
  le_bytes 4 (Z.of_nat (length fb)) ++ fb.

Definition writeHeader (fields : gmap (list ascii) (list ascii)) : M unit :=
  write (header_bytes fields).

Definition writeDataLength (data_len : Z) : M unit :=
  write (le_bytes 4 data_len).

Definition appendHeaderToBuffer (buf : list ascii)
    (fields : gmap (list ascii) (list ascii)) : list ascii :=
  buf ++ header_bytes fields.

Definition appendDataLengthToBuffer (buf : list ascii) (data_len : Z) : list ascii :=
  buf ++ le_bytes 4 data_len.

(** [Bag::toHeaderString<T>]: the [sizeof(T)] bytes of the field. *)
Definition toHeaderString (size : nat) (field : Z) : list ascii :=
  le_bytes size field.

(** Modelled from the spec: the [ros::Time] overload is defined outside the
    sources; a time is [u32 sec], [u32 nsec], little-endian. *)
Definition toHeaderString_Time (field : Time) : list ascii :=
  le_bytes 4 (sec field) ++ le_bytes 4 (nsec field).

(** ** Messages

    The engine is generic in the message type: it uses the three descriptor
    strings of [ros::message_traits] and the serialized bytes. *)

Record Message := mkMessage {
  msg_datatype : list ascii;
  msg_md5sum : list ascii;
  msg_definition : list ascii;
  msg_serialized : list ascii
}.

Definition serializationLength (msg : Message) : Z :=
  wrap32 (Z.of_nat (length (msg_serialized msg))).

(** ** Writing (the parts of bag.cpp that [doWrite] calls)

    Modelled from the spec: [bag.cpp] is not part of the sources.  The
    definitions of this section follow the writer path of the spec. *)

Fixpoint forM_ {A : Type} (l : list A) (f : A → M unit) : M unit :=
  match l with
  | [] => mret tt
  | x :: l' => f x ;; forM_ l' f
  end.

(** The current uncompressed chunk size. *)
Definition getChunkOffset (b : Bag) : Z :=
  wrap32 (ChunkedFile_getOffset (file_ b) - curr_chunk_data_pos_ b).

Definition chunk_header_fields (uncompressed_size : Z) : gmap (list ascii) (list ascii) :=
  <[SIZE_FIELD_NAME := toHeaderString 4 uncompressed_size]>
    (<[COMPRESSION_FIELD_NAME := COMPRESSION_NONE]>
      (<[OP_FIELD_NAME := toHeaderString 1 OP_CHUNK]> ∅)).

Definition writeChunkHeader (compressed_size uncompressed_size : Z) : M unit :=
  writeHeader (chunk_header_fields uncompressed_size) ;;
  writeDataLength compressed_size.

(** [Bag::writeMessageDataRecord], lines 660-663: the time range of the
    current chunk is widened by the time of the message. *)
Definition update_chunk_time_range (time : Time) (ci : ChunkInfo) : ChunkInfo :=
  if Time_gtb time (ChunkInfo.end_time ci)
  then ChunkInfo.mk (ChunkInfo.start_time ci) time
         (ChunkInfo.pos ci) (ChunkInfo.connection_counts ci)
  else if Time_ltb time (ChunkInfo.start_time ci)
  then ChunkInfo.mk time (ChunkInfo.end_time ci)
         (ChunkInfo.pos ci) (ChunkInfo.connection_counts ci)
  else ci.

(** Modelled from the spec (write, step 4): the chunk position is recorded,
    a placeholder chunk record header with zero sizes is written, the file
    enters its write stream, and the chunk info is reset with both times at
    [+∞] and then updated with the time of the message. *)
Definition startWritingChunk (time : Time) : M unit :=
  modify (λ b, set_curr_chunk_info_
                 (ChunkInfo.mk TIME_MAX TIME_MAX (ChunkedFile_getOffset (file_ b)) ∅) b) ;;
  writeChunkHeader 0 0 ;;
  modify (λ b, set_file_ (ChunkedFile_setWriteMode (file_ b)) b) ;;
  modify (λ b, set_curr_chunk_data_pos_ (ChunkedFile_getOffset (file_ b)) b) ;;
  modify (λ b, set_curr_chunk_info_ (update_chunk_time_range time (curr_chunk_info_ b)) b) ;;
  modify (set_chunk_open_ true).

Definition connection_record_fields (connection_info : ConnectionInfo)
  : gmap (list ascii) (list ascii) :=
  <[CONNECTION_FIELD_NAME := toHeaderString 4 (ConnectionInfo.id connection_info)]>
    (<[TOPIC_FIELD_NAME := ConnectionInfo.topic connection_info]>
      (<[OP_FIELD_NAME := toHeaderString 1 OP_CONNECTION]> ∅)).

(** A connection record: the record header, then the connection header as
    the data of the record.  With the no-op encryptor the [encrypt] flag
    makes no difference. *)
Definition writeConnectionRecord (connection_info : ConnectionInfo) (encrypt : bool)
  : M unit :=
  writeHeader (connection_record_fields connection_info) ;;
  writeHeader (ConnectionInfo.header connection_info).

Definition appendConnectionRecordToBuffer (buf : list ascii)
    (connection_info : ConnectionInfo) : list ascii :=
  appendHeaderToBuffer
    (appendHeaderToBuffer buf (connection_record_fields connection_info))
    (ConnectionInfo.header connection_info).

Definition index_record_fields (connection_id index_size : Z)
  : gmap (list ascii) (list ascii) :=
  <[COUNT_FIELD_NAME := toHeaderString 4 index_size]>
    (<[VER_FIELD_NAME := toHeaderString 4 INDEX_VERSION]>
      (<[CONNECTION_FIELD_NAME := toHeaderString 4 connection_id]>
        (<[OP_FIELD_NAME := toHeaderString 1 OP_INDEX_DATA]> ∅))).

Definition index_entry_bytes (e : IndexEntry) : list ascii :=
  toHeaderString_Time (IndexEntry.time e) ++ le_bytes 4 (IndexEntry.offset e).

(** One index-data record per connection of the chunk. *)
Definition writeIndexRecords : M unit :=
  indexes ← gets curr_chunk_connection_indexes_;
  forM_ (map_to_list indexes) (λ '(connection_id, index),
    let index_size := wrap32 (Z.of_nat (length index)) in
    writeHeader (index_record_fields connection_id index_size) ;;
    writeDataLength (wrap32 (index_size * 12)) ;;
    write (concat (index_entry_bytes <$> index))).

(** Modelled from the spec ([stop_writing_chunk]). *)
Definition stopWritingChunk : M unit :=
  '(compressed_size, uncompressed_size) ←
    (λ b, let '(sizes, f) := ChunkedFile_stopWrite (file_ b) in
          (Ok sizes, set_file_ f b));
  chunk_pos ← gets (λ b, ChunkInfo.pos (curr_chunk_info_ b));
  seek chunk_pos ios_beg ;;
  writeChunkHeader compressed_size uncompressed_size ;;
  seek 0 ios_end ;;
  writeIndexRecords ;;
  modify (λ b, set_chunks_ (chunks_ b ++ [curr_chunk_info_ b]) b) ;;
  modify (set_curr_chunk_connection_indexes_ ∅) ;;
  modify (set_chunk_open_ false).

(** ** The write path of bag.h *)

Definition message_data_fields (conn_id : Z) (time : Time)
  : gmap (list ascii) (list ascii) :=
  <[TIME_FIELD_NAME := toHeaderString_Time time]>
    (<[CONNECTION_FIELD_NAME := toHeaderString 4 conn_id]>
      (<[OP_FIELD_NAME := toHeaderString 1 OP_MSG_DATA]> ∅)).

(** [Bag::writeMessageDataRecord] (bag.h, lines 624-664). *)
Definition writeMessageDataRecord (conn_id : Z) (time : Time) (msg : Message) : M unit :=
  let header := message_data_fields conn_id time in
  (* Assemble message in memory first, because we need to write its length *)
  let msg_ser_len := serializationLength msg in
  modify (λ b, set_record_buffer_ (Buffer_setSize msg_ser_len (record_buffer_ b)) b) ;;
  modify (λ b, set_record_buffer_
                 (memcpy (record_buffer_ b) 0 (msg_serialized msg) msg_ser_len) b) ;;
  seek 0 ios_end ;;
  modify (λ b, set_file_size_ (ChunkedFile_getOffset (file_ b)) b) ;;
  writeHeader header ;;
  writeDataLength msg_ser_len ;;
  record ← gets record_buffer_;
  write (take (Z.to_nat msg_ser_len) record) ;;
  modify (λ b, set_outgoing_chunk_buffer_
                 (appendHeaderToBuffer (outgoing_chunk_buffer_ b) header) b) ;;
  modify (λ b, set_outgoing_chunk_buffer_
                 (appendDataLengthToBuffer (outgoing_chunk_buffer_ b) msg_ser_len) b) ;;
  offset ← gets (λ b, Buffer_getSize (outgoing_chunk_buffer_ b));
  modify (λ b, set_outgoing_chunk_buffer_
                 (Buffer_setSize
                    (wrap32 (Buffer_getSize (outgoing_chunk_buffer_ b) + msg_ser_len))
                    (outgoing_chunk_buffer_ b)) b) ;;
  modify (λ b, set_outgoing_chunk_buffer_
                 (memcpy (outgoing_chunk_buffer_ b) offset (record_buffer_ b) msg_ser_len) b) ;;
  (* Update the current chunk time range *)
  modify (λ b, set_curr_chunk_info_ (update_chunk_time_range time (curr_chunk_info_ b)) b).

(** [connections_[conn_id]] on the [std::map] of pointers: a key that is not
    there is inserted with a null pointer. *)
Definition connections_at (conn_id : Z) : M (option ConnectionInfo) := λ b,
  match connections_ b !! conn_id with
  | Some p => (Ok p, b)
  | None => (Ok None, set_connections_ (<[conn_id := None]> (connections_ b)) b)
  end.

(** The connection header the engine manufactures when the caller gives
    none. *)
Definition manufactured_header (datatype md5sum msg_def : list ascii)
  : gmap (list ascii) (list ascii) :=
  <[str "message_definition" := msg_def]>
    (<[str "md5sum" := md5sum]> (<[str "type" := datatype]> ∅)).

(** [multiset.insert(multiset.end(), e)] on [m[key]]. *)
Definition index_insert (key : Z) (e : IndexEntry) (m : gmap Z (list IndexEntry))
  : gmap Z (list IndexEntry) :=
  <[key := mset_insert e (default [] (m !! key))]> m.

Definition increment_count (key : Z) (ci : ChunkInfo) : ChunkInfo :=
  ChunkInfo.mk (ChunkInfo.start_time ci) (ChunkInfo.end_time ci) (ChunkInfo.pos ci)
    (<[key := wrap32 (default 0 (ChunkInfo.connection_counts ci !! key) + 1)]>
       (ChunkInfo.connection_counts ci)).

Definition set_chunk_pos (p : Z) (ci : ChunkInfo) : ChunkInfo :=
  ChunkInfo.mk (ChunkInfo.start_time ci) (ChunkInfo.end_time ci) p
    (ChunkInfo.connection_counts ci).

(** The key under which [doWrite] looks a connection header up: a copy of
    the header with the topic put into it. *)
Definition connection_header_key (topic : list ascii)
    (connection_header : gmap (list ascii) (list ascii))
  : gmap (list ascii) (list ascii) :=
  <[str "topic" := topic]> connection_header.

(** Get ID for connection header (bag.h, lines 522-557). *)
Definition resolve_connection (topic : list ascii)
    (connection_header : option (gmap (list ascii) (list ascii)))
  : M (option ConnectionInfo * Z) :=
  match connection_header with
  | None =>
      (* No connection header: we'll manufacture one, and store by topic *)
      ids ← gets topic_connection_ids_;
      match ids !! topic with
      | None =>
          conn_id ← gets (λ b, wrap32 (Z.of_nat (size (connections_ b))));
          modify (λ b, set_topic_connection_ids_
                         (<[topic := conn_id]> (topic_connection_ids_ b)) b) ;;
          mret (None, conn_id)
      | Some conn_id =>
          connection_info ← connections_at conn_id;
          mret (connection_info, conn_id)
      end
  | Some h =>
      let connection_header_copy := connection_header_key topic h in
      ids ← gets header_connection_ids_;
      match ids !! connection_header_copy with
      | None =>
          conn_id ← gets (λ b, wrap32 (Z.of_nat (size (connections_ b))));
          modify (λ b, set_header_connection_ids_
                         (<[connection_header_copy := conn_id]>
                            (header_connection_ids_ b)) b) ;;
          mret (None, conn_id)
      | Some conn_id =>
          connection_info ← connections_at conn_id;
          mret (connection_info, conn_id)
      end
  end.

(** Add to topic indexes (bag.h, lines 591-606). *)
Definition add_to_indexes (connection_info : ConnectionInfo) (time : Time) : M IndexEntry :=
  index_entry ← gets (λ b, IndexEntry.mk time (ChunkInfo.pos (curr_chunk_info_ b))
                             (getChunkOffset b));
  modify (λ b, set_curr_chunk_connection_indexes_
                 (index_insert (ConnectionInfo.id connection_info) index_entry
                    (curr_chunk_connection_indexes_ b)) b) ;;
  mode ← gets mode_;
  (if decide (mode ≠ Write)
   then modify (λ b, set_connection_indexes_
                       (index_insert (ConnectionInfo.id connection_info) index_entry
                          (connection_indexes_ b)) b)
   else mret tt) ;;
  (* Increment the connection count *)
  modify (λ b, set_curr_chunk_info_
                 (increment_count (ConnectionInfo.id connection_info) (curr_chunk_info_ b)) b) ;;
  mret index_entry.

(** Write the chunk header if we're starting a new chunk (bag.h, lines
    564-566). *)
Definition start_chunk_if_closed (time : Time) : M unit :=
  chunk_open ← gets chunk_open_;
  if (chunk_open : bool) then mret tt else startWritingChunk time.

(** Write connection info record, if necessary (bag.h, lines 568-589):
    [connection_info] is the connection found for the id, if there is
    one. *)
Definition connection_record_if_new (connection_info : option ConnectionInfo)
    (conn_id : Z) (topic : list ascii) (msg : Message)
    (connection_header : option (gmap (list ascii) (list ascii))) : M ConnectionInfo :=
  match connection_info with
  | None =>
      let connection_info :=
        ConnectionInfo.mk conn_id topic
          (msg_datatype msg) (msg_md5sum msg) (msg_definition msg)
          (match connection_header with
           | Some h => h
           | None => manufactured_header (msg_datatype msg) (msg_md5sum msg)
                       (msg_definition msg)
           end) in
      modify (λ b, set_connections_
                     (<[conn_id := Some connection_info]> (connections_ b)) b) ;;
      (* No need to encrypt connection records in chunks *)
      writeConnectionRecord connection_info false ;;
      modify (λ b, set_outgoing_chunk_buffer_
                     (appendConnectionRecordToBuffer (outgoing_chunk_buffer_ b)
                        connection_info) b) ;;
      mret connection_info
  | Some connection_info => mret connection_info
  end.

(** Check if we want to stop this chunk (bag.h, lines 611-620). *)
Definition stop_chunk_if_full : M unit :=
  chunk_size ← gets getChunkOffset;
  chunk_threshold ← gets chunk_threshold_;
  if chunk_threshold <? chunk_size
  then
    (* Empty the outgoing chunk *)
    stopWritingChunk ;;
    modify (λ b, set_outgoing_chunk_buffer_
                   (Buffer_setSize 0 (outgoing_chunk_buffer_ b)) b) ;;
    (* We no longer have a valid curr_chunk_info *)
    modify (λ b, set_curr_chunk_info_ (set_chunk_pos (wrap64 (-1)) (curr_chunk_info_ b)) b)
  else mret tt.

(** [Bag::doWrite] (bag.h, lines 511-622). *)
Definition doWrite (topic : list ascii) (time : Time) (msg : Message)
    (connection_header : option (gmap (list ascii) (list ascii))) : M unit :=
  if Time_ltb time TIME_MIN
  then throw (BagException "Tried to insert a message with time less than ros::TIME_MIN")
  else
    (* Whenever we write we increment our revision *)
    modify (λ b, set_bag_revision_ (wrap32 (bag_revision_ b + 1)) b) ;;
    (* Get ID for connection header *)
    '(connection_info, conn_id) ← resolve_connection topic connection_header;
    (* Seek to the end of the file (needed in case previous operation was a read) *)
    seek 0 ios_end ;;
    modify (λ b, set_file_size_ (ChunkedFile_getOffset (file_ b)) b) ;;
    start_chunk_if_closed time ;;
    connection_info ←
      connection_record_if_new connection_info conn_id topic msg connection_header;
    (* Add to topic indexes *)
    add_to_indexes connection_info time ;;
    (* Write the message data *)
    writeMessageDataRecord conn_id time msg ;;
    stop_chunk_if_full.

(** ** Reading records

    Modelled from the spec: the record decoder is in [bag.cpp] and
    [ros/header.h], which are not part of the sources.  A header is decoded
    by splitting each length-prefixed field on its first [=]; a field without
    [=] or a name that appears twice is a format error. *)

Global Instance outcome_ret : MRet outcome := λ A a, Ok a.

Global Instance outcome_bind : MBind outcome := λ A B k m,
  match m with
  | Ok a => k a
  | Throw e => Throw e
  end.

Definition lift {A : Type} (r : outcome A) : M A := λ b, (r, b).

Fixpoint split_field (field : list ascii) : option (list ascii * list ascii) :=
  match field with
  | [] => None
  | c :: rest =>
      if decide (c = "="%char) then Some ([], rest)
      else match split_field rest with
           | Some (name, value) => Some (c :: name, value)
           | None => None
           end
  end.

Fixpoint parse_fields (fuel : nat) (bs : list ascii)
    (acc : gmap (list ascii) (list ascii)) : option (gmap (list ascii) (list ascii)) :=
  match bs with
  | [] => Some acc
  | _ :: _ =>
      match fuel with
      | O => None
      | S fuel' =>
          if (length bs <? 4)%nat then None
          else
            let field_len := Z.to_nat (le_value (take 4 bs)) in
            let field := take field_len (drop 4 bs) in
            if (length field <? field_len)%nat then None
            else
              match split_field field with
              | None => None
              | Some (name, value) =>
                  match acc !! name with
                  | Some _ => None
                  | None =>
                      parse_fields fuel' (drop (4 + field_len) bs) (<[name := value]> acc)
                  end
              end
      end
  end.

Definition Header_parse (bs : list ascii) : option (gmap (list ascii) (list ascii)) :=
  parse_fields (length bs) bs ∅.

Definition readHeader : M (gmap (list ascii) (list ascii)) :=
  len ← read 4;
  fields ← read (le_value len);
  match Header_parse fields with
  | Some header => mret header
  | None => throw (BagFormatException "Error parsing header")
  end.

Definition readDataLength : M Z :=
  len ← read 4;
  mret (le_value len).

(** Modelled from the spec: a required field that is missing, or a field
    of the wrong size, is a format error. *)
Definition checkField (fields : gmap (list ascii) (list ascii)) (field : list ascii)
    (min_len max_len : Z) (required : bool) : outcome (option (list ascii)) :=
  match fields !! field with
  | None =>
      if required
      then Throw (BagFormatException
                    ("Required '" +:+ string_of_list_ascii field +:+ "' field missing"))
      else Ok None
  | Some value =>
      if (Z.of_nat (length value) <? min_len) || (max_len <? Z.of_nat (length value))
      then Throw (BagFormatException
                    ("Field '" +:+ string_of_list_ascii field +:+ "' is wrong size"))
      else Ok (Some value)
  end.

(** [Bag::readField<T>] (bag.h, lines 389-396): [None] is the [false] the
    source returns when an optional field is not there. *)
Definition readField (size : nat) (fields : gmap (list ascii) (list ascii))
    (field_name : list ascii) (required : bool) : outcome (option Z) :=
  i ← checkField fields field_name (Z.of_nat size) (Z.of_nat size) required;
  match i with
  | None => mret None
  | Some value => mret (Some (le_value (take size value)))
  end.

Definition readField_string (fields : gmap (list ascii) (list ascii))
    (field_name : list ascii) (required : bool) : outcome (option (list ascii)) :=
  checkField fields field_name 1 (2 ^ 32 - 1) required.

Definition readField_Time (fields : gmap (list ascii) (list ascii))
    (field_name : list ascii) (required : bool) : outcome (option Time) :=
  i ← checkField fields field_name 8 8 required;
  match i with
  | None => mret None
  | Some value =>
      mret (Some (mkTime (le_value (take 4 value)) (le_value (take 4 (drop 4 value)))))
  end.

(** A field read with [required = true]: the source leaves the variable as
    it was declared when the field is optional and missing; with a required
    field the call has thrown by then. *)
Definition required {A : Type} (dflt : A) (r : outcome (option A)) : outcome A :=
  i ← r;
  mret (default dflt i).

Definition isOp (fields : gmap (list ascii) (list ascii)) (reqOp : Z) : outcome bool :=
  op ← required 255 (readField 1 fields OP_FIELD_NAME true);
  mret (op =? reqOp).

Definition readHeaderFromBuffer (buffer : list ascii) (offset : Z)
  : outcome (gmap (list ascii) (list ascii) * Z * Z) :=
  let start := drop (Z.to_nat offset) buffer in
  if (length start <? 4)%nat then Throw (BagFormatException "Error parsing header")
  else
    let header_len := le_value (take 4 start) in
    let header := take (Z.to_nat header_len) (drop 4 start) in
    let rest := drop (4 + Z.to_nat header_len) start in
    if (Z.of_nat (length header) <? header_len) || (length rest <? 4)%nat
    then Throw (BagFormatException "Error parsing header")
    else
      match Header_parse header with
      | None => Throw (BagFormatException "Error parsing header")
      | Some fields => Ok (fields, le_value (take 4 rest), wrap32 (4 + header_len + 4))
      end.

(** Modelled from the spec ([read_message]): the record header at the offset
    is decoded and its [op] must be that of a message-data record. *)
Definition readMessageDataHeaderFromBuffer (buffer : list ascii) (offset : Z)
  : outcome (gmap (list ascii) (list ascii) * Z * Z) :=
  '(header, data_size, bytes_read) ← readHeaderFromBuffer buffer offset;
  is_data ← isOp header OP_MSG_DATA;
  if (is_data : bool) then mret (header, data_size, bytes_read)
  else Throw (BagFormatException "Expected MSG_DATA op not found").

(** ** The lazy chunk cache

    Modelled from the spec: the engine holds one decompressed chunk in
    [decompress_buffer], identified by [decompressed_chunk]; for a version
    2.00 bag [current_buffer] is that buffer. *)

Definition readChunkHeader : M ChunkHeader :=
  fields ← readHeader;
  data_size ← readDataLength;
  is_chunk ← lift (isOp fields OP_CHUNK);
  if (is_chunk : bool)
  then
    compression ← lift (required [] (readField_string fields COMPRESSION_FIELD_NAME true));
    size ← lift (required 0 (readField 4 fields SIZE_FIELD_NAME true));
    mret (ChunkHeader.mk compression data_size size)
  else throw (BagFormatException "Expected CHUNK op not found").

Definition decompressRawChunk (chunk_header : ChunkHeader) : M unit :=
  if negb (ChunkHeader.compressed_size chunk_header
           =? ChunkHeader.uncompressed_size chunk_header)
  then throw (BagFormatException "Invalid uncompressed chunk size")
  else
    data ← read (ChunkHeader.compressed_size chunk_header);
    modify (set_decompress_buffer_ data).

Definition decompressChunk (chunk_pos : Z) : M unit :=
  loaded ← gets decompressed_chunk_;
  if loaded =? chunk_pos then mret tt
  else
    seek chunk_pos ios_beg ;;
    chunk_header ← readChunkHeader;
    (if decide (ChunkHeader.compression chunk_header = COMPRESSION_NONE)
     then decompressRawChunk chunk_header
     else throw (BagException "Unknown compression")) ;;
    modify (set_decompressed_chunk_ chunk_pos).

Definition current_buffer (b : Bag) : list ascii := decompress_buffer_ b.

(** Modelled from the spec: in the legacy format an index entry points at a
    message-data record in the file; the record is read into
    [record_buffer]. *)
Definition readMessageDataRecord102 (offset : Z) : M (gmap (list ascii) (list ascii)) :=
  seek offset ios_beg ;;
  header ← readHeader;
  data_size ← readDataLength;
  is_data ← lift (isOp header OP_MSG_DATA);
  if (is_data : bool)
  then
    data ← read data_size;
    modify (set_record_buffer_ data) ;;
    mret header
  else throw (BagFormatException "Expected MSG_DATA op not found").

(** ** The read path of bag.h *)

(** [Bag::readMessageDataIntoStream] (bag.h, lines 398-424): the bytes
    copied to [stream.advance(data_size)] are appended to the stream. *)
Definition readMessageDataIntoStream (index_entry : IndexEntry) (stream : list ascii)
  : M (list ascii) :=
  version ← gets version_;
  if version =? 200
  then
    decompressChunk (IndexEntry.chunk_pos index_entry) ;;
    buffer ← gets current_buffer;
    '(header, data_size, bytes_read) ←
      lift (readMessageDataHeaderFromBuffer buffer (IndexEntry.offset index_entry));
    if 0 <? data_size
    then mret (stream ++ take (Z.to_nat data_size)
                           (drop (Z.to_nat (IndexEntry.offset index_entry + bytes_read))
                              buffer))
    else mret stream
  else if version =? 102
  then
    header ← readMessageDataRecord102 (IndexEntry.chunk_pos index_entry);
    record ← gets record_buffer_;
    let data_size := Buffer_getSize record in
    if 0 <? data_size
    then mret (stream ++ take (Z.to_nat data_size) record)
    else mret stream
  else throw (BagFormatException ("Unhandled version: " +:+ pretty version)).

(** The traits of a message type [T] that the read path uses: the md5sum
    registered for [T] and its deserializer, which sees the connection header
    ([PreDeserialize]) and the serialized bytes. *)
Class MessageType (T : Type) := {
  MD5Sum_value : list ascii;
  deserialize : gmap (list ascii) (list ascii) → list ascii → T
}.

(** Dereferencing an entry of [connections_]: a null entry is no
    connection. *)
Definition deref (p : option ConnectionInfo) : M ConnectionInfo :=
  match p with
  | Some connection_info => mret connection_info
  | None => throw (BagException "null connection")
  end.

(** [Bag::instantiateBuffer] (bag.h, lines 426-509); [None] is the empty
    [shared_ptr]. *)
Definition instantiateBuffer {T : Type} `{MessageType T} (index_entry : IndexEntry)
  : M (option T) :=
  version ← gets version_;
  if version =? 200
  then
    decompressChunk (IndexEntry.chunk_pos index_entry) ;;
    (* Read the message header *)
    buffer ← gets current_buffer;
    '(header, data_size, bytes_read) ←
      lift (readMessageDataHeaderFromBuffer buffer (IndexEntry.offset index_entry));
    (* Read the connection id from the header *)
    connection_id ← lift (required 0 (readField 4 header CONNECTION_FIELD_NAME true));
    connections ← gets connections_;
    match connections !! connection_id with
    | None =>
        throw (BagFormatException ("Unknown connection ID: " +:+ pretty connection_id))
    | Some p =>
        connection_info ← deref p;
        (* Deserialize the message *)
        mret (Some (deserialize (ConnectionInfo.header connection_info)
                      (take (Z.to_nat data_size)
                         (drop (Z.to_nat (IndexEntry.offset index_entry + bytes_read))
                            buffer))))
    end
  else if version =? 102
  then
    (* Read the message record *)
    fields ← readMessageDataRecord102 (IndexEntry.chunk_pos index_entry);
    (* Read the connection id from the header *)
    topic ← lift (required [] (readField_string fields TOPIC_FIELD_NAME true));
    latching ← lift (required (str "0") (readField_string fields LATCHING_FIELD_NAME false));
    callerid ← lift (required [] (readField_string fields CALLERID_FIELD_NAME false));
    topic_connection_ids ← gets topic_connection_ids_;
    match topic_connection_ids !! topic with
    | None =>
        throw (BagFormatException ("Unknown topic: " +:+ string_of_list_ascii topic))
    | Some connection_id =>
        connections ← gets connections_;
        match connections !! connection_id with
        | None =>
            throw (BagFormatException
                     ("Unknown connection ID: " +:+ pretty connection_id))
        | Some p =>
            connection_info ← deref p;
            (* Create a new connection header, updated with the latching and
               callerid values *)
            let message_header :=
              <[str "callerid" := callerid]>
                (<[str "latching" := latching]> (ConnectionInfo.header connection_info)) in
            record ← gets record_buffer_;
            mret (Some (deserialize message_header record))
        end
    end
  else throw (BagFormatException ("Unhandled version: " +:+ pretty version)).

(** ** MessageInstance (message_instance.h) *)

Record MessageInstance := mkMessageInstance {
  connection_info_ : ConnectionInfo;
  index_entry_ : IndexEntry
}.

(** Modelled from the spec: the accessors are defined outside the sources;
    they expose the fields of the connection and of the index entry. *)
Definition getTime (m : MessageInstance) : Time := IndexEntry.time (index_entry_ m).
Definition getTopic (m : MessageInstance) : list ascii :=
  ConnectionInfo.topic (connection_info_ m).
Definition getMD5Sum (m : MessageInstance) : list ascii :=
  ConnectionInfo.md5sum (connection_info_ m).

(** [MessageInstance::isType] (message_instance.h, lines 159-163). *)
Definition isType (T : Type) `{MessageType T} (m : MessageInstance) : bool :=
  bool_decide (MD5Sum_value = str "*") || bool_decide (MD5Sum_value = getMD5Sum m).

(** [MessageInstance::instantiate] (message_instance.h, lines 165-171). *)
Definition instantiate (T : Type) `{MessageType T} (m : MessageInstance) : M (option T) :=
  if negb (isType T m)
  then mret None
  else instantiateBuffer (index_entry_ m).

(** [MessageInstance::write] (message_instance.h, lines 173-176). *)
Definition MessageInstance_write (m : MessageInstance) (stream : list ascii)
  : M (list ascii) :=
  readMessageDataIntoStream (index_entry_ m) stream.

(** ** Opening and closing (bag.cpp)

    Modelled from the spec: the lifecycle operations are in [bag.cpp], which
    is not part of the sources.  [open] takes the contents of the file at
    the path it is given; [close] leaves the contents it wrote in the closed
    file. *)

Definition closed_file (disk : list ascii) : ChunkedFile := mkChunkedFile false disk 0 None.

(** The engine as constructed: the [Closed] state of the spec. *)
Definition Bag_init : Bag :=
  mkBag Write (closed_file []) 0 (768 * 1024) 0 0 0 0 0 0 false
    (ChunkInfo.mk (mkTime 0 0) (mkTime 0 0) 0 ∅) 0 ∅ ∅ ∅ [] ∅ ∅ [] [] [] 0.

Definition isOpen (b : Bag) : bool := cf_open (file_ b).

Definition setChunkThreshold (chunk_threshold : Z) : M unit :=
  modify (set_chunk_threshold_ (wrap32 chunk_threshold)).

Definition file_header_fields (index_pos conn_count chunk_count : Z)
  : gmap (list ascii) (list ascii) :=
  <[CHUNK_COUNT_FIELD_NAME := toHeaderString 4 chunk_count]>
    (<[CONNECTION_COUNT_FIELD_NAME := toHeaderString 4 conn_count]>
      (<[INDEX_POS_FIELD_NAME := toHeaderString 8 index_pos]>
        (<[OP_FIELD_NAME := toHeaderString 1 OP_FILE_HEADER]> ∅))).

(** The file header record has a fixed length on disk: the data of the
    record is padding. *)
Definition file_header_record (index_pos conn_count chunk_count : Z) : list ascii :=
  let header := header_bytes (file_header_fields index_pos conn_count chunk_count) in
  let used := Z.of_nat (length header) + 4 in
  let data_len := if used <? FILE_HEADER_LENGTH then FILE_HEADER_LENGTH - used else 0 in
  header ++ le_bytes 4 data_len ++ replicate (Z.to_nat data_len) " "%char.

Definition writeFileHeaderRecord : M unit :=
  modify (λ b, set_connection_count_ (wrap32 (Z.of_nat (size (connections_ b)))) b) ;;
  modify (λ b, set_chunk_count_ (wrap32 (Z.of_nat (length (chunks_ b)))) b) ;;
  record ← gets (λ b, file_header_record (index_data_pos_ b) (connection_count_ b)
                        (chunk_count_ b));
  write record.

Definition writeVersion : M unit := write MAGIC_200.

Definition startWriting : M unit :=
  writeVersion ;;
  modify (λ b, set_file_header_pos_ (ChunkedFile_getOffset (file_ b)) b) ;;
  writeFileHeaderRecord.

Definition openWrite : M unit :=
  modify (set_file_ (mkChunkedFile true [] 0 None)) ;;
  startWriting.

Definition writeConnectionRecords : M unit :=
  connections ← gets connections_;
  forM_ (map_to_list connections) (λ '(_, p),
    connection_info ← deref p;
    writeConnectionRecord connection_info true).

Definition chunk_info_fields (chunk_info : ChunkInfo) : gmap (list ascii) (list ascii) :=
  <[COUNT_FIELD_NAME :=
      toHeaderString 4 (wrap32 (Z.of_nat (size (ChunkInfo.connection_counts chunk_info))))]>
    (<[END_TIME_FIELD_NAME := toHeaderString_Time (ChunkInfo.end_time chunk_info)]>
      (<[START_TIME_FIELD_NAME := toHeaderString_Time (ChunkInfo.start_time chunk_info)]>
        (<[CHUNK_POS_FIELD_NAME := toHeaderString 8 (ChunkInfo.pos chunk_info)]>
          (<[VER_FIELD_NAME := toHeaderString 4 CHUNK_INFO_VERSION]>
            (<[OP_FIELD_NAME := toHeaderString 1 OP_CHUNK_INFO]> ∅))))).

Definition connection_count_bytes (kv : Z * Z) : list ascii :=
  le_bytes 4 kv.1 ++ le_bytes 4 kv.2.

Definition writeChunkInfoRecords : M unit :=
  chunks ← gets chunks_;
  forM_ chunks (λ chunk_info,
    let chunk_connection_count :=
      wrap32 (Z.of_nat (size (ChunkInfo.connection_counts chunk_info))) in
    writeHeader (chunk_info_fields chunk_info) ;;
    writeDataLength (wrap32 (8 * chunk_connection_count)) ;;
    write (concat (connection_count_bytes
                     <$> map_to_list (ChunkInfo.connection_counts chunk_info)))).

(** Modelled from the spec ([close (Write)]). *)
Definition stopWriting : M unit :=
  chunk_open ← gets chunk_open_;
  (if (chunk_open : bool) then stopWritingChunk else mret tt) ;;
  modify (λ b, set_index_data_pos_ (ChunkedFile_getOffset (file_ b)) b) ;;
  writeConnectionRecords ;;
  writeChunkInfoRecords ;;
  file_header_pos ← gets file_header_pos_;
  seek file_header_pos ios_beg ;;
  writeFileHeaderRecord.

Definition closeWrite : M unit := stopWriting.

(** [close] is a no-op on an engine that is not open; otherwise it finishes
    the file, releases the handle and returns the engine to [Closed]. *)
Definition close : M unit :=
  is_open ← gets isOpen;
  if (is_open : bool)
  then
    mode ← gets mode_;
    (if decide (mode = Write ∨ mode = Append) then closeWrite else mret tt) ;;
    modify (λ b, set_file_ (ChunkedFile_close (file_ b)) b) ;;
    modify (set_topic_connection_ids_ ∅) ;;
    modify (set_header_connection_ids_ ∅) ;;
    modify (set_connections_ ∅) ;;
    modify (set_chunks_ []) ;;
    modify (set_connection_indexes_ ∅) ;;
    modify (set_curr_chunk_connection_indexes_ ∅)
  else mret tt.

(** ** Loading a version 2.00 bag

    Modelled from the spec ([open(Read)] and the V2.00 load). *)

Fixpoint repeatM (n : nat) (m : M unit) : M unit :=
  match n with
  | O => mret tt
  | S n' => m ;; repeatM n' m
  end.

Definition readVersion : M unit :=
  line ← read (Z.of_nat (length MAGIC_200));
  modify (λ b, set_file_header_pos_ (ChunkedFile_getOffset (file_ b)) b) ;;
  if decide (line = MAGIC_200) then modify (set_version_ 200)
  else if decide (line = MAGIC_102) then modify (set_version_ 102)
  else throw (BagIOException "Error reading version line").

Definition readFileHeaderRecord : M unit :=
  fields ← readHeader;
  data_size ← readDataLength;
  is_file_header ← lift (isOp fields OP_FILE_HEADER);
  if (is_file_header : bool)
  then
    index_data_pos ← lift (required 0 (readField 8 fields INDEX_POS_FIELD_NAME true));
    modify (set_index_data_pos_ index_data_pos) ;;
    if index_data_pos =? 0 then throw BagUnindexedException
    else
      connection_count ←
        lift (required 0 (readField 4 fields CONNECTION_COUNT_FIELD_NAME true));
      modify (set_connection_count_ connection_count) ;;
      chunk_count ← lift (required 0 (readField 4 fields CHUNK_COUNT_FIELD_NAME true));
      modify (set_chunk_count_ chunk_count) ;;
      (* Skip the data section (just padding) *)
      seek data_size ios_cur
  else throw (BagFormatException "Expected FILE_HEADER op not found").

Definition readConnectionRecord : M unit :=
  fields ← readHeader;
  is_connection ← lift (isOp fields OP_CONNECTION);
  if (is_connection : bool)
  then
    id ← lift (required 0 (readField 4 fields CONNECTION_FIELD_NAME true));
    topic ← lift (required [] (readField_string fields TOPIC_FIELD_NAME true));
    connection_header ← readHeader;
    connections ← gets connections_;
    match connections !! id with
    | Some _ => mret tt
    | None =>
        let connection_info :=
          ConnectionInfo.mk id topic
            (default [] (connection_header !! str "type"))
            (default [] (connection_header !! str "md5sum"))
            (default [] (connection_header !! str "message_definition"))
            connection_header in
        modify (λ b, set_connections_ (<[id := Some connection_info]> (connections_ b)) b)
    end
  else throw (BagFormatException "Expected CONNECTION op not found").

Fixpoint parse_connection_counts (n : nat) (data : list ascii) : gmap Z Z :=
  match n with
  | O => ∅
  | S n' =>
      <[le_value (take 4 data) := le_value (take 4 (drop 4 data))]>
        (parse_connection_counts n' (drop 8 data))
  end.

Definition readChunkInfoRecord : M unit :=
  fields ← readHeader;
  data_size ← readDataLength;
  is_chunk_info ← lift (isOp fields OP_CHUNK_INFO);
  if (is_chunk_info : bool)
  then
    chunk_info_version ← lift (required 0 (readField 4 fields VER_FIELD_NAME true));
    if negb (chunk_info_version =? CHUNK_INFO_VERSION)
    then throw (BagFormatException "Expected CHUNK_INFO version not found")
    else
      chunk_pos ← lift (required 0 (readField 8 fields CHUNK_POS_FIELD_NAME true));
      start_time ←
        lift (required (mkTime 0 0) (readField_Time fields START_TIME_FIELD_NAME true));
      end_time ←
        lift (required (mkTime 0 0) (readField_Time fields END_TIME_FIELD_NAME true));
      chunk_connection_count ← lift (required 0 (readField 4 fields COUNT_FIELD_NAME true));
      data ← read (8 * chunk_connection_count);
      modify (λ b, set_chunks_
                     (chunks_ b ++
                        [ChunkInfo.mk start_time end_time chunk_pos
                           (parse_connection_counts (Z.to_nat chunk_connection_count) data)])
                     b)
  else throw (BagFormatException "Expected CHUNK_INFO op not found").

Fixpoint parse_index_entries (n : nat) (chunk_pos : Z) (data : list ascii)
  : list IndexEntry :=
  match n with
  | O => []
  | S n' =>
      IndexEntry.mk
        (mkTime (le_value (take 4 data)) (le_value (take 4 (drop 4 data))))
        chunk_pos
        (le_value (take 4 (drop 8 data)))
        :: parse_index_entries n' chunk_pos (drop 12 data)
  end.

Definition readConnectionIndexRecord200 : M unit :=
  fields ← readHeader;
  data_size ← readDataLength;
  is_index ← lift (isOp fields OP_INDEX_DATA);
  if (is_index : bool)
  then
    index_version ← lift (required 0 (readField 4 fields VER_FIELD_NAME true));
    connection_id ← lift (required 0 (readField 4 fields CONNECTION_FIELD_NAME true));
    count ← lift (required 0 (readField 4 fields COUNT_FIELD_NAME true));
    if negb (index_version =? INDEX_VERSION)
    then throw (BagFormatException "Unsupported INDEX_DATA version")
    else
      chunk_pos ← gets (λ b, ChunkInfo.pos (curr_chunk_info_ b));
      data ← read (12 * count);
      modify (λ b, set_connection_indexes_
                     (foldl (λ m e, index_insert connection_id e m)
                        (connection_indexes_ b)
                        (parse_index_entries (Z.to_nat count) chunk_pos data)) b)
  else throw (BagFormatException "Expected INDEX_DATA op not found").

Definition startReadingVersion200 : M unit :=
  (* Read the file header record, which points to the end of the chunks *)
  readFileHeaderRecord ;;
  index_data_pos ← gets index_data_pos_;
  seek index_data_pos ios_beg ;;
  connection_count ← gets connection_count_;
  repeatM (Z.to_nat connection_count) readConnectionRecord ;;
  chunk_count ← gets chunk_count_;
  repeatM (Z.to_nat chunk_count) readChunkInfoRecord ;;
  (* Read the connection indexes for each chunk *)
  chunks ← gets chunks_;
  forM_ chunks (λ chunk_info,
    modify (set_curr_chunk_info_ chunk_info) ;;
    seek (ChunkInfo.pos chunk_info) ios_beg ;;
    (* Skip over the chunk data *)
    chunk_header ← readChunkHeader;
    seek (ChunkHeader.compressed_size chunk_header) ios_cur ;;
    (* Read the index records after the chunk *)
    repeatM (size (ChunkInfo.connection_counts chunk_info)) readConnectionIndexRecord200) ;;
  modify (set_curr_chunk_info_ (ChunkInfo.mk (mkTime 0 0) (mkTime 0 0) 0 ∅)).

Definition openRead (disk : list ascii) : M unit :=
  modify (set_file_ (mkChunkedFile true disk 0 None)) ;;
  readVersion ;;
  version ← gets version_;
  if version =? 200 then startReadingVersion200
  else throw (BagException "Unsupported bag file version").

(** Appending: the index is loaded, the trailing records are cut off and
    the file header is rewritten without an index position. *)
Definition openAppend (disk : list ascii) : M unit :=
  modify (set_file_ (mkChunkedFile true disk 0 None)) ;;
  readVersion ;;
  version ← gets version_;
  if version =? 200
  then
    startReadingVersion200 ;;
    modify (λ b, set_file_
                   (mkChunkedFile true
                      (take (Z.to_nat (index_data_pos_ b)) (cf_contents (file_ b)))
                      (Nat.min (cf_offset (file_ b)) (Z.to_nat (index_data_pos_ b)))
                      None) b) ;;
    modify (set_index_data_pos_ 0) ;;
    file_header_pos ← gets file_header_pos_;
    seek file_header_pos ios_beg ;;
    writeFileHeaderRecord ;;
    seek 0 ios_end
  else throw (BagException "Bag file version is unsupported for appending").

Definition open (disk : list ascii) (mode : BagMode) : M unit :=
  modify (set_mode_ mode) ;;
  match mode with
  | Append => openAppend disk
  | Write => openWrite
  | Read => openRead disk
  end ;;
  (* Determine file size *)
  offset ← gets (λ b, ChunkedFile_getOffset (file_ b));
  seek 0 ios_end ;;
  modify (λ b, set_file_size_ (ChunkedFile_getOffset (file_ b)) b) ;;
  seek offset ios_beg.

(** ** The view

    Modelled from the spec: the view is outside the sources.  It merges the
    indexes of the connections a query selects: it emits, again and again,
    the head that is least by [(time, chunk_pos, offset)] and, among equal
    heads, that of the least connection id, up to the end of the window. *)

Definition iter_before (a b : ConnectionInfo * IndexEntry) : bool :=
  IndexEntry.ltb a.2 b.2
  || (negb (IndexEntry.ltb b.2 a.2) && (ConnectionInfo.id a.1 <? ConnectionInfo.id b.1)).

(** The least head of the iterators, if one is left. *)
Fixpoint min_head (iters : list (ConnectionInfo * list IndexEntry))
  : option (ConnectionInfo * IndexEntry) :=
  match iters with
  | [] => None
  | (c, []) :: rest => min_head rest
  | (c, e :: _) :: rest =>
      match min_head rest with
      | Some h => if iter_before h (c, e) then Some h else Some (c, e)
      | None => Some (c, e)
      end
  end.

(** The iterator of connection [id] moves on by one entry. *)
Definition advance (id : Z) (iters : list (ConnectionInfo * list IndexEntry))
  : list (ConnectionInfo * list IndexEntry) :=
  (λ it : ConnectionInfo * list IndexEntry,
     if ConnectionInfo.id it.1 =? id then (it.1, tail it.2) else it) <$> iters.

Fixpoint View_merge (fuel : nat) (end_time : Time)
    (iters : list (ConnectionInfo * list IndexEntry)) : list MessageInstance :=
  match fuel with
  | O => []
  | S fuel' =>
      match min_head iters with
      | None => []
      | Some (c, e) =>
          if Time_gtb (IndexEntry.time e) end_time then []
          else mkMessageInstance c e
                 :: View_merge fuel' end_time (advance (ConnectionInfo.id c) iters)
      end
  end.

Fixpoint dropwhile_before (start_time : Time) (l : list IndexEntry) : list IndexEntry :=
  match l with
  | [] => []
  | e :: l' =>
      if Time_ltb (IndexEntry.time e) start_time then dropwhile_before start_time l' else l
  end.

(** The iterators of a view: one for each connection whose topic the query
    selects, at its first entry that is not before [start_time]. *)
Definition View_iterators (b : Bag) (query : list ascii → bool) (start_time : Time)
  : list (ConnectionInfo * list IndexEntry) :=
  omap (λ kv : Z * option ConnectionInfo,
          match kv.2 with
          | Some c =>
              if query (ConnectionInfo.topic c)
              then Some (c, dropwhile_before start_time
                              (default [] (connection_indexes_ b !! kv.1)))
              else None
          | None => None
          end)
       (map_to_list (connections_ b)).

Definition View (b : Bag) (query : list ascii → bool) (start_time end_time : Time)
  : list MessageInstance :=
  let iters := View_iterators b query start_time in
  View_merge (sum_list (length <$> iters.*2)) end_time iters.

(** The view of the whole bag: every topic, the full time range. *)
Definition View_all (b : Bag) : list MessageInstance :=
  View b (λ _, true) TIME_MIN TIME_MAX.

(** ** The caller-facing operations *)

(** [Bag::write] (bag.h, lines 369-372). *)
Definition Bag_write (topic : list ascii) (time : Time) (msg : Message)
    (connection_header : option (gmap (list ascii) (list ascii))) : M unit :=
  doWrite topic time msg connection_header.

Record WriteCall := mkWriteCall {
  w_topic : list ascii;
  w_time : Time;
  w_msg : Message;
  w_connection_header : option (gmap (list ascii) (list ascii))
}.

Definition write_call (w : WriteCall) : M unit :=
  Bag_write (w_topic w) (w_time w) (w_msg w) (w_connection_header w).

(** The bytes of a message, read as they are. *)
Global Instance raw_message : MessageType (list ascii) := {|
  MD5Sum_value := str "*";
  deserialize := λ _ data, data
|}.

Inductive Operation : Type :=
  | op_open (disk : list ascii) (mode : BagMode)
  | op_close
  | op_setChunkThreshold (chunk_threshold : Z)
  | op_write (w : WriteCall)
  | op_read (m : MessageInstance)
  | op_instantiate (m : MessageInstance).

Definition perform (op : Operation) : M unit :=
  match op with
  | op_open disk mode => open disk mode
  | op_close => close
  | op_setChunkThreshold n => setChunkThreshold n
  | op_write w => write_call w
  | op_read m => MessageInstance_write m [] ;; mret tt
  | op_instantiate m => instantiate (list ascii) m ;; mret tt
  end.


(** Writing a bag: open for writing, set the chunk threshold, write the
    messages, close. *)
Definition record_bag (chunk_threshold : Z) (ws : list WriteCall) : M unit :=
  open [] Write ;;
  setChunkThreshold chunk_threshold ;;
  forM_ ws write_call.

Definition write_bag (chunk_threshold : Z) (ws : list WriteCall) : M unit :=
  record_bag chunk_threshold ws ;;
  close.

(** Reading a bag back: the messages of the view of the whole bag, each as
    its topic, its time and the bytes [MessageInstance::write] copies out. *)
Fixpoint read_messages (ms : list MessageInstance)
  : M (list (list ascii * Time * list ascii)) :=
  match ms with
  | [] => mret []
  | m :: ms' =>
      data ← MessageInstance_write m [];
      rest ← read_messages ms';
      mret ((getTopic m, getTime m, data) :: rest)
  end.

Definition read_bag (disk : list ascii) : M (list (list ascii * Time * list ascii)) :=
  open disk Read ;;
  ms ← gets View_all;
  read_messages ms.

(** The file a closed engine leaves behind. *)
Definition disk_of (b : Bag) : list ascii := cf_contents (file_ b).

(** ** Specifications of computations

    [hoare P m Q E]: from a state that satisfies [P], [m] returns a value
    and a state that satisfy [Q], or throws in a state that satisfies
    [E]. *)
Definition hoare {A : Type} (P : Bag → Prop) (m : M A)
    (Q : A → Bag → Prop) (E : exn → Bag → Prop) : Prop :=
  ∀ b, P b →
    match m b with
    | (Ok a, b') => Q a b'
    | (Throw e, b') => E e b'
    end.

(** [m] keeps [I] when it returns, and throws only as [E] allows. *)
Definition keeps {A : Type} (I : Bag → Prop) (E : exn → Bag → Prop) (m : M A) : Prop :=
  hoare I m (λ _, I) E.

(** [m] keeps [I], whatever its outcome. *)
Definition preserves {A : Type} (I : Bag → Prop) (m : M A) : Prop :=
  keeps I (λ _, I) m.

(** [m] returns, and what it returns satisfies [Q]. *)
Definition returns {A : Type} (P : Bag → Prop) (m : M A) (Q : A → Bag → Prop) : Prop :=
  hoare P m Q (λ _ _, False).

(** ** Invariants of the engine state *)


Definition file_open (b : Bag) : Prop := isOpen b = true.

(** No exception. *)
Definition never (e : exn) (b : Bag) : Prop := False.

(** ** Connections along a sequence of writes *)

(** The identity of the connection of a write: the topic when the caller
    gives no connection header, the header with the topic put into it when
    the caller gives one. *)
Definition conn_key (w : WriteCall) : list ascii + gmap (list ascii) (list ascii) :=
  match w_connection_header w with
  | None => inl (w_topic w)
  | Some h => inr (connection_header_key (w_topic w) h)
  end.

(** The connection id the engine has on record for an identity. *)
Definition lookup_key (k : list ascii + gmap (list ascii) (list ascii)) (b : Bag)
  : option Z :=
  match k with
  | inl topic => topic_connection_ids_ b !! topic
  | inr h => header_connection_ids_ b !! h
  end.

(** The distinct identities of a sequence, in the order in which they first
    appear. *)
Definition distinct {A : Type} `{EqDecision A} (l : list A) : list A :=
  foldl (λ ks k, if decide (k ∈ ks) then ks else ks ++ [k]) [] l.

(** The writes the time check lets through. *)
Definition accepted (ws : list WriteCall) : list WriteCall :=
  filter (λ w, Time_ltb (w_time w) TIME_MIN = false) ws.

(** The state after a sequence of writes, each of them caught if it
    throws. *)
Definition after_writes (ws : list WriteCall) (b : Bag) : Bag :=
  foldl (λ b w, (write_call w b).2) b ws.

(** ** The messages of the open chunk

    A write that returns has put its message into the chunk that is open
    when it returns; when the write has closed the chunk, no chunk is
    open.  [track_chunk] follows the times of the messages of the open chunk
    along a sequence of writes. *)
Definition track_chunk (s : Bag * list Time) (w : WriteCall) : Bag * list Time :=
  match write_call w s.1 with
  | (Ok _, b') => (b', if chunk_open_ b' then s.2 ++ [w_time w] else [])
  | (Throw _, b') => (b', s.2)
  end.

(** The time range of the current chunk brackets a time. *)
Definition in_chunk_range (b : Bag) (t : Time) : Prop :=
  Time_le (ChunkInfo.start_time (curr_chunk_info_ b)) t
  ∧ Time_le t (ChunkInfo.end_time (curr_chunk_info_ b)).

(** Between two writes ([cur]: the times of the messages of the open
    chunk). *)
Definition range_inv (cur : list Time) (b : Bag) : Prop :=
  file_open b
  ∧ (chunk_open_ b = true →
     Time_le (ChunkInfo.start_time (curr_chunk_info_ b))
       (ChunkInfo.end_time (curr_chunk_info_ b)))
  ∧ (chunk_open_ b = false → cur = [])
  ∧ ∀ t, t ∈ cur → in_chunk_range b t.

(** Inside a write, once the chunk is open. *)
Definition range_open (cur : list Time) (b : Bag) : Prop :=
  file_open b
  ∧ chunk_open_ b = true
  ∧ Time_le (ChunkInfo.start_time (curr_chunk_info_ b))
      (ChunkInfo.end_time (curr_chunk_info_ b))
  ∧ ∀ t, t ∈ cur → in_chunk_range b t.

(** The topic of a connection identity. *)
Definition key_topic (k : list ascii + gmap (list ascii) (list ascii)) : list ascii :=
  match k with
  | inl topic => topic
  | inr h => default [] (h !! str "topic")
  end.

(** The bookkeeping of connections between two writes: [ks] are the
    identities met so far, in the order in which their connections were
    created. *)
Definition ids_inv (ks : list (list ascii + gmap (list ascii) (list ascii))) (b : Bag)
  : Prop :=
  file_open b
  ∧ NoDup ks
  ∧ size (connections_ b) = length ks
  ∧ (∀ i p, connections_ b !! i = Some p → 0 <= i < Z.of_nat (length ks))
  ∧ (∀ i k, ks !! i = Some k →
       ∃ c, connections_ b !! Z.of_nat i = Some (Some c)
            ∧ ConnectionInfo.id c = Z.of_nat i
            ∧ ConnectionInfo.topic c = key_topic k)
  ∧ (∀ k i, lookup_key k b = Some i ↔ 0 <= i ∧ ks !! Z.to_nat i = Some k).

(** Inside a write, once the connection is resolved: [conn_id] is the id of
    the identity [k]; when the connection is new its record is still to be
    made. *)
Definition ids_resolved (ks : list (list ascii + gmap (list ascii) (list ascii)))
    (k : list ascii + gmap (list ascii) (list ascii))
    (connection_info : option ConnectionInfo) (conn_id : Z) (b : Bag) : Prop :=
  file_open b
  ∧ NoDup ks
  ∧ size (connections_ b) = length ks
  ∧ (∀ i p, connections_ b !! i = Some p → 0 <= i < Z.of_nat (length ks))
  ∧ (∀ i k, ks !! i = Some k →
       ∃ c, connections_ b !! Z.of_nat i = Some (Some c)
            ∧ ConnectionInfo.id c = Z.of_nat i
            ∧ ConnectionInfo.topic c = key_topic k)
  ∧ match connection_info with
    | Some c =>
        (∀ k i, lookup_key k b = Some i ↔ 0 <= i ∧ ks !! Z.to_nat i = Some k)
        ∧ 0 <= conn_id ∧ ks !! Z.to_nat conn_id = Some k
        ∧ connections_ b !! conn_id = Some (Some c)
    | None =>
        (∀ k' i, lookup_key k' b = Some i ↔ 0 <= i ∧ (ks ++ [k]) !! Z.to_nat i = Some k')
        ∧ (k ∉ ks) ∧ conn_id = Z.of_nat (length ks)
    end.

(** ** Sample sessions *)

(** A bag that has just been opened for writing. *)
Definition fresh_bag : Bag := (open [] Write Bag_init).2.
(** A message of type [std_msgs/String]. *)
Definition msg_of (bs : list ascii) : Message := mkMessage (str "std_msgs/String") (str "992ce8a1687cec8c8bd883ec73ca41d1") (str "string data") bs.
Definition three_writes : list WriteCall :=
  [mkWriteCall (str "/a") (mkTime 5 0) (msg_of (str "x")) None;
   mkWriteCall (str "/b") (mkTime 3 0) (msg_of (str "y")) None;
   mkWriteCall (str "/a") (mkTime 9 0) (msg_of (str "z")) None].

Definition caller_header : gmap (list ascii) (list ascii) :=
  <[str "callerid" := str "/talker"]> (<[str "type" := str "std_msgs/String"]> ∅).

Definition four_writes : list WriteCall :=
  [mkWriteCall (str "/a") (mkTime 5 0) (msg_of (str "x")) None;
   mkWriteCall (str "/b") (mkTime 6 0) (msg_of (str "y")) (Some caller_header);
   mkWriteCall (str "/c") (mkTime 7 0) (msg_of (str "z")) (Some caller_header);
   mkWriteCall (str "/a") (mkTime 8 0) (msg_of (str "w")) None].


(** ** Headers on disk *)

(** The number of bytes a field takes. *)
Definition field_length (kv : list ascii * list ascii) : nat :=
  (4 + (length kv.1 + 1 + length kv.2))%nat.

Definition fields_length (fields : gmap (list ascii) (list ascii)) : nat :=
  sum_list_with field_length (map_to_list fields).

(** The decoder splits a field at its first [=]: it finds the names again
    that hold none. *)
Definition good_names (fields : gmap (list ascii) (list ascii)) : Prop :=
  ∀ k v, fields !! k = Some v → "="%char ∉ k.

(** ** The records of a bag file *)

Definition connection_record (c : ConnectionInfo) : list ascii :=
  header_bytes (connection_record_fields c) ++ header_bytes (ConnectionInfo.header c).

Definition message_record (conn_id : Z) (time : Time) (data : list ascii) : list ascii :=
  header_bytes (message_data_fields conn_id time)
    ++ le_bytes 4 (Z.of_nat (length data)) ++ data.

Definition chunk_record_header (size : Z) : list ascii :=
  header_bytes (chunk_header_fields size) ++ le_bytes 4 size.

(** The size of the file. *)
Definition fsize (b : Bag) : nat := length (cf_contents (file_ b)).

(** The engine is at the end of its file. *)
Definition at_end (b : Bag) : Prop :=
  cf_open (file_ b) = true ∧ cf_offset (file_ b) = fsize b.

(** The state after bytes have been written at the end of the file. *)
Definition append_file (bs : list ascii) (b : Bag) : Bag :=
  set_file_ (mkChunkedFile true (cf_contents (file_ b) ++ bs)
               (fsize b + length bs) (cf_stream_start (file_ b))) b.

(** A computation does not shrink the file. *)
Definition grows {A : Type} (m : M A) : Prop := ∀ b, (fsize b ≤ fsize (m b).2)%nat.

(** The chunk record header takes the same room whatever sizes it
    carries. *)
Definition chunk_header_length : nat := 49.

(** The connection [doWrite] makes for an id that is new (bag.h, lines
    570-584). *)
Definition new_connection (conn_id : Z) (topic : list ascii) (msg : Message)
    (connection_header : option (gmap (list ascii) (list ascii))) : ConnectionInfo :=
  ConnectionInfo.mk conn_id topic
    (msg_datatype msg) (msg_md5sum msg) (msg_definition msg)
    (match connection_header with
     | Some h => h
     | None => manufactured_header (msg_datatype msg) (msg_md5sum msg)
                 (msg_definition msg)
     end).

(** ** ros::Time (ros/time.h)

    The fields of a [TimeBase] are [uint32_t]. *)
Definition Time_fields (t : Time) : Prop :=
  0 <= sec t < 2 ^ 32 ∧ 0 <= nsec t < 2 ^ 32.

(** [TimeBase::toNSec] (time.h, line 158): both fields are cast to
    [uint64_t], and the product and the sum are taken in 64 bits. *)
Definition toNSec (t : Time) : Z :=
  wrap64 (wrap64 (wrap64 (sec t) * 1000000000) + wrap64 (nsec t)).

(** [TimeBase::isZero] and [TimeBase::is_zero] (time.h, lines 161-162). *)
Definition isZero (t : Time) : bool := (sec t =? 0) && (nsec t =? 0).
Definition is_zero (t : Time) : bool := isZero t.

(** ** The counts of the open chunk

    The chunk info counts the messages of each connection in the open
    chunk, in 32 bits; the index of the open chunk lists them.  With no chunk
    open the index is empty. *)
Definition counts_match (b : Bag) : Prop :=
  if chunk_open_ b
  then ∀ id, default 0 (ChunkInfo.connection_counts (curr_chunk_info_ b) !! id)
             = wrap32 (Z.of_nat (length (default [] (curr_chunk_connection_indexes_ b !! id))))
  else curr_chunk_connection_indexes_ b = ∅.

(** ** Sample sessions *)

(** A bag with one message on [/a]. *)
Definition one_write_bag : Bag :=
  (doWrite (str "/a") (mkTime 5 0) (msg_of (str "x")) None fresh_bag).2.

(** A reader that holds in its buffer the chunk a writer has open, with the
    connections of the writer. *)
Definition reader_of (w : Bag) : Bag :=
  set_connections_ (connections_ w)
    (set_decompress_buffer_ (outgoing_chunk_buffer_ w)
       (set_decompressed_chunk_ (ChunkInfo.pos (curr_chunk_info_ w))
          (set_version_ 200 Bag_init))).

(** * Orders *)


Lemma Time_ltb_spec a b :
  Time_ltb a b = true ↔ sec a < sec b ∨ (sec a = sec b ∧ nsec a < nsec b).
Proof.
  unfold Time_ltb. rewrite orb_true_iff, andb_true_iff, !Z.ltb_lt, Z.eqb_eq. tauto.
Qed.

Lemma Time_ltb_false a b :
  Time_ltb a b = false ↔ sec b < sec a ∨ (sec a = sec b ∧ nsec b <= nsec a).
Proof.
  rewrite <- not_true_iff_false, Time_ltb_spec. lia.
Qed.

Lemma Time_leb_spec a b :
  Time_leb a b = true ↔ sec a < sec b ∨ (sec a = sec b ∧ nsec a <= nsec b).
Proof.
  unfold Time_leb. rewrite negb_true_iff, Time_ltb_false. lia.
Qed.

Lemma Time_leb_refl a : Time_leb a a = true.
Proof. apply Time_leb_spec. lia. Qed.

Lemma Time_leb_trans a b c : Time_leb a b = true → Time_leb b c = true → Time_leb a c = true.
Proof. rewrite !Time_leb_spec. lia. Qed.

Lemma IndexEntry_ltb_spec a b :
  IndexEntry.ltb a b = true ↔
  Time_ltb (IndexEntry.time a) (IndexEntry.time b) = true
  ∨ (Time_ltb (IndexEntry.time b) (IndexEntry.time a) = false
     ∧ (IndexEntry.chunk_pos a < IndexEntry.chunk_pos b
        ∨ (IndexEntry.chunk_pos a = IndexEntry.chunk_pos b
           ∧ IndexEntry.offset a < IndexEntry.offset b))).
Proof.
  unfold IndexEntry.ltb.
  repeat (rewrite orb_true_iff || rewrite andb_true_iff).
  rewrite negb_true_iff, !Z.ltb_lt, Z.eqb_eq. tauto.
Qed.

Lemma IndexEntry_leb_total a b : IndexEntry.leb a b = false → IndexEntry.leb b a = true.
Proof.
  unfold IndexEntry.leb. rewrite negb_false_iff, negb_true_iff.
  rewrite <- not_true_iff_false, !IndexEntry_ltb_spec, !Time_ltb_spec, !Time_ltb_false. lia.
Qed.

Lemma IndexEntry_leb_trans a b c :
  IndexEntry.leb a b = true → IndexEntry.leb b c = true → IndexEntry.leb a c = true.
Proof.
  unfold IndexEntry.leb. rewrite !negb_true_iff, <- !not_true_iff_false.
  rewrite !IndexEntry_ltb_spec, !Time_ltb_spec, !Time_ltb_false. lia.
Qed.


Global Instance IndexEntry_le_trans : Transitive IndexEntry_le.
Proof. intros a b c. apply IndexEntry_leb_trans. Qed.

(** * The multiset of index entries *)



(** * Rules for computations *)

Lemma bind_run {A B : Type} (m : M A) (k : A → M B) b :
  (m ≫= k) b = match m b with
               | (Ok a, b') => k a b'
               | (Throw e, b') => (Throw e, b')
               end.
Proof. reflexivity. Qed.

(** Running a computation whose steps are changes of the state. *)
Ltac run_simpl :=
  repeat (unfold mbind, M_bind, mret, M_ret, modify, gets, throw, lift; simpl).

Lemma hoare_bind {A B : Type} P (m : M A) (k : A → M B) Q R E :
  hoare P m Q E → (∀ a, hoare (Q a) (k a) R E) → hoare P (m ≫= k) R E.
Proof.
  intros Hm Hk b HP. rewrite bind_run. specialize (Hm b HP).
  destruct (m b) as [[a|e] b']; [by apply Hk|done].
Qed.

Lemma hoare_gets {A B : Type} P (f : Bag → A) (k : A → M B) Q E :
  (∀ a, hoare (λ b, P b ∧ f b = a) (k a) Q E) → hoare P (gets f ≫= k) Q E.
Proof. intros Hk b HP. rewrite bind_run. unfold gets. by apply Hk. Qed.

Lemma hoare_conseq {A : Type} (P P' : Bag → Prop) (m : M A) (Q Q' : A → Bag → Prop) E E' :
  hoare P' m Q' E' → (∀ b, P b → P' b) → (∀ a b, Q' a b → Q a b) →
  (∀ e b, E' e b → E e b) → hoare P m Q E.
Proof.
  intros H HP HQ HE b Hb. specialize (H b (HP b Hb)).
  destruct (m b) as [[a|e] b']; auto.
Qed.

Section keeps.
Context (I : Bag → Prop) (E : exn → Bag → Prop).

Lemma keeps_bind {A B : Type} (m : M A) (k : A → M B) :
  keeps I E m → (∀ a, keeps I E (k a)) → keeps I E (m ≫= k).
Proof. intros Hm Hk. eapply hoare_bind; [exact Hm|exact Hk]. Qed.

Lemma keeps_ret {A : Type} (a : A) : keeps I E (mret a).
Proof. by intros b Hb. Qed.

Lemma keeps_throw {A : Type} e : (∀ b, I b → E e b) → keeps I E (throw (A:=A) e).
Proof. intros He b Hb. by apply He. Qed.

Lemma keeps_gets {A : Type} (f : Bag → A) : keeps I E (gets f).
Proof. by intros b Hb. Qed.

Lemma keeps_lift {A : Type} (r : outcome A) :
  (∀ e b, r = Throw e → I b → E e b) → keeps I E (lift r).
Proof. intros He b Hb. unfold lift. destruct r; [done|]. by apply He. Qed.

Lemma keeps_modify f : (∀ b, I b → I (f b)) → keeps I E (modify f).
Proof. intros Hf b Hb. by apply Hf. Qed.

Lemma keeps_forM_ {A : Type} (l : list A) (f : A → M unit) :
  (∀ x, keeps I E (f x)) → keeps I E (forM_ l f).
Proof.
  intros Hf. induction l as [|x l IH]; simpl.
  - apply keeps_ret.
  - apply keeps_bind; auto.
Qed.

Lemma keeps_repeatM n (m : M unit) : keeps I E m → keeps I E (repeatM n m).
Proof.
  intros Hm. induction n as [|n IH]; simpl.
  - apply keeps_ret.
  - apply keeps_bind; auto.
Qed.

Lemma keeps_write bs :
  (∀ b, I b → match ChunkedFile_write bs (file_ b) with
              | Ok f => I (set_file_ f b)
              | Throw e => E e b
              end) →
  keeps I E (write bs).
Proof.
  intros H b Hb. unfold write. specialize (H b Hb).
  by destruct (ChunkedFile_write bs (file_ b)).
Qed.

Lemma keeps_seek p origin :
  (∀ b, I b → match ChunkedFile_seek p origin (file_ b) with
              | Ok f => I (set_file_ f b)
              | Throw e => E e b
              end) →
  keeps I E (seek p origin).
Proof.
  intros H b Hb. unfold seek. specialize (H b Hb).
  by destruct (ChunkedFile_seek p origin (file_ b)).
Qed.

Lemma keeps_read n :
  (∀ b, I b → match ChunkedFile_read n (file_ b) with
              | Ok (_, f) => I (set_file_ f b)
              | Throw e => E e b
              end) →
  keeps I E (read n).
Proof.
  intros H b Hb. unfold read. specialize (H b Hb).
  by destruct (ChunkedFile_read n (file_ b)) as [[bs f]|].
Qed.

Lemma keeps_stopWrite :
  (∀ b, I b → I (set_file_ (ChunkedFile_stopWrite (file_ b)).2 b)) →
  keeps I E (λ b, let '(sizes, f) := ChunkedFile_stopWrite (file_ b) in
                  (Ok sizes, set_file_ f b)).
Proof. intros HI b Hb. simpl. by apply HI. Qed.

Lemma keeps_connections_at conn_id :
  (∀ b, I b → I (set_connections_ (<[conn_id := None]> (connections_ b)) b)) →
  keeps I E (connections_at conn_id).
Proof.
  intros HI b Hb. unfold connections_at.
  destruct (connections_ b !! conn_id); [done|by apply HI].
Qed.
End keeps.

(** One step through a computation whose parts keep an invariant; what is
    left are the changes of the state, to be shown to keep it. *)
Ltac keeps_step :=
  lazymatch goal with
  | |- keeps _ _ (mbind _ _) => apply keeps_bind; [|intros]
  | |- keeps _ _ (mret _) => apply keeps_ret
  | |- keeps _ _ (throw _) => apply keeps_throw; intros
  | |- keeps _ _ (gets _) => apply keeps_gets
  | |- keeps _ _ (lift _) => apply keeps_lift; intros
  | |- keeps _ _ (forM_ _ _) => apply keeps_forM_; intros
  | |- keeps _ _ (repeatM _ _) => apply keeps_repeatM
  | |- keeps _ _ (write _) => apply keeps_write; intros
  | |- keeps _ _ (seek _ _) => apply keeps_seek; intros
  | |- keeps _ _ (read _) => apply keeps_read; intros
  | |- keeps _ _ (modify _) => apply keeps_modify; intros
  | |- keeps _ _ (connections_at _) => apply keeps_connections_at; intros
  | |- keeps _ _ (match ?x with _ => _ end) => destruct x eqn:?
  | |- keeps _ _ (λ b, let '(_, _) := _ in _) => apply keeps_stopWrite; intros
  end.

Ltac unfold_engine :=
  unfold perform, write_call, Bag_write, doWrite, resolve_connection,
    start_chunk_if_closed, connection_record_if_new, stop_chunk_if_full,
    add_to_indexes, writeMessageDataRecord, startWritingChunk, stopWritingChunk,
    writeChunkHeader, writeConnectionRecord, writeIndexRecords, writeHeader,
    writeDataLength, open, openWrite, openRead, openAppend, startWriting, writeVersion,
    writeFileHeaderRecord, close, closeWrite, stopWriting, writeConnectionRecords,
    writeChunkInfoRecords, readVersion, startReadingVersion200, readFileHeaderRecord,
    readConnectionRecord, readChunkInfoRecord, readConnectionIndexRecord200,
    readChunkHeader, decompressChunk, decompressRawChunk, readHeader, readDataLength,
    readMessageDataRecord102, readMessageDataIntoStream, instantiate, instantiateBuffer,
    MessageInstance_write, setChunkThreshold, deref.

Ltac keeps_auto := repeat first [keeps_step | progress unfold_engine].

Ltac file_cases :=
  unfold ChunkedFile_write, ChunkedFile_seek, ChunkedFile_read;
  repeat match goal with |- context [if ?c then _ else _] => destruct c eqn:? end.

(** * The in-memory index stays sorted *)









(** * Writing checks the time first *)

Lemma doWrite_throws_io topic time msg h :
  Time_ltb time TIME_MIN = false →
  keeps (λ _, True) (λ e _, ∃ s, e = BagIOException s) (doWrite topic time msg h).
Proof.
  intros Ht. unfold doWrite. rewrite Ht.
  keeps_auto; try done; file_cases; eauto.
Qed.

(** C2: a write with a time below [TIME_MIN] throws the exception of the
    time check (the spec's InvalidArgument) and leaves the whole engine
    state, with the file, its length and its position, as it was; a write
    with a time that is not below [TIME_MIN] never throws that exception. *)
Theorem doWrite_time_check topic time msg h b :
  (Time_ltb time TIME_MIN = true →
   doWrite topic time msg h b
   = (Throw (BagException "Tried to insert a message with time less than ros::TIME_MIN"), b))
  ∧ (Time_ltb time TIME_MIN = false →
     ∀ s, (doWrite topic time msg h b).1 ≠ Throw (BagException s)).
Proof.
  split; intros Ht.
  - unfold doWrite. by rewrite Ht.
  - intros s Hs. pose proof (doWrite_throws_io topic time msg h Ht b I) as H.
    destruct (doWrite topic time msg h b) as [[?|e] b']; simpl in *; [done|].
    destruct H as [s' ->]. done.
Qed.

(** * Which index a write extends *)


Section index_frame.
Context (X : gmap Z (list IndexEntry)) (μ : BagMode).





End index_frame.


(** * Closing *)

Lemma close_closed b : isOpen b = false → close b = (Ok tt, b).
Proof. intros H. unfold close. run_simpl. by rewrite H. Qed.

Lemma close_leaves_closed b b' : close b = (Ok tt, b') → isOpen b' = false.
Proof.
  unfold close. rewrite bind_run. unfold gets at 1.
  destruct (isOpen b) eqn:Ho.
  - rewrite bind_run. unfold gets at 1. rewrite bind_run.
    destruct ((if decide (mode_ b = Write ∨ mode_ b = Append) then closeWrite else mret ()) b)
      as [[[]|e] b1]; [|done].
    run_simpl. by intros [= <-].
  - by intros [= <-].
Qed.

Lemma doWrite_closed topic time msg h b :
  isOpen b = false → ∃ e b', doWrite topic time msg h b = (Throw e, b').
Proof.
  intros Hc. unfold doWrite. destruct (Time_ltb time TIME_MIN); [by eexists _, _|].
  assert (keeps (λ b, isOpen b = false) (λ _ _, False)
            (modify (λ b, set_bag_revision_ (wrap32 (bag_revision_ b + 1)) b) ;;
             resolve_connection topic h)) as Hpre.
  { keeps_auto; done. }
  rewrite bind_run. unfold modify at 1.
  specialize (Hpre b Hc). rewrite bind_run in Hpre. unfold modify at 1 in Hpre.
  rewrite bind_run.
  destruct (resolve_connection topic h _) as [[[ci conn_id]|e] b1]; [|done].
  rewrite bind_run. unfold seek, ChunkedFile_seek. unfold isOpen in Hpre.
  rewrite Hpre. by eexists _, _.
Qed.

(** C4: [close] on an engine that is not open returns at once and changes
    neither the engine state nor the file; after a [close] that returned,
    another [close] is such a no-op, and every write throws. *)
Theorem close_idempotent_then_writes_fail b :
  (isOpen b = false → close b = (Ok tt, b))
  ∧ (∀ b', close b = (Ok tt, b') →
       close b' = (Ok tt, b')
       ∧ ∀ w, ∃ e b'', write_call w b' = (Throw e, b'')).
Proof.
  split; [apply close_closed|].
  intros b' Hb'. apply close_leaves_closed in Hb'. split; [by apply close_closed|].
  intros w. by apply doWrite_closed.
Qed.

(** * Instantiating a message *)


Lemma instantiateBuffer_200 (T : Type) `{MessageType T} (e : IndexEntry) b b1
    header data_size bytes_read cid :
  version_ b = 200 →
  decompressChunk (IndexEntry.chunk_pos e) b = (Ok tt, b1) →
  readMessageDataHeaderFromBuffer (current_buffer b1) (IndexEntry.offset e)
  = Ok (header, data_size, bytes_read) →
  readField 4 header CONNECTION_FIELD_NAME true = Ok (Some cid) →
  instantiateBuffer (T:=T) e b
  = match connections_ b1 !! cid with
    | None => (Throw (BagFormatException ("Unknown connection ID: " +:+ pretty cid)), b1)
    | Some None => (Throw (BagException "null connection"), b1)
    | Some (Some connection_info) =>
        (Ok (Some (deserialize (ConnectionInfo.header connection_info)
                     (take (Z.to_nat data_size)
                        (drop (Z.to_nat (IndexEntry.offset e + bytes_read))
                           (current_buffer b1))))), b1)
    end.
Proof.
  intros Hv Hd Hh Hc. unfold instantiateBuffer.
  rewrite bind_run. unfold gets at 1. rewrite Hv. simpl.
  rewrite bind_run, Hd. rewrite bind_run. unfold gets at 1.
  rewrite bind_run. unfold lift at 1. rewrite Hh.
  rewrite bind_run. unfold lift at 1, required. rewrite Hc. simpl.
  rewrite bind_run. unfold gets at 1.
  destruct (connections_ b1 !! cid) as [[ci|]|]; reflexivity.
Qed.


Lemma checkField_throws fields field min_len max_len required e :
  checkField fields field min_len max_len required = Throw e →
  ∃ s, e = BagFormatException s.
Proof.
  unfold checkField. destruct (fields !! field).
  - case_match; [|done]. intros [= <-]. eauto.
  - destruct required; [|done]. intros [= <-]. eauto.
Qed.

Lemma instantiateBuffer_102 (T : Type) `{MessageType T} (e : IndexEntry) b b1 fields topic :
  version_ b = 102 →
  readMessageDataRecord102 (IndexEntry.chunk_pos e) b = (Ok fields, b1) →
  fields !! TOPIC_FIELD_NAME = Some topic →
  topic_connection_ids_ b1 !! topic = None →
  ∃ s, instantiateBuffer (T:=T) e b = (Throw (BagFormatException s), b1).
Proof.
  intros Hv Hr Ht Hn. unfold instantiateBuffer.
  rewrite bind_run. unfold gets at 1. rewrite Hv. simpl.
  rewrite bind_run, Hr.
  rewrite bind_run. unfold lift at 1, required at 1, readField_string at 1.
  destruct (checkField fields TOPIC_FIELD_NAME 1 (2 ^ 32 - 1) true) as [i|err] eqn:Hc1.
  2:{ apply checkField_throws in Hc1 as [s ->]. simpl. eauto. }
  assert (i = Some topic) as ->.
  { unfold checkField in Hc1. rewrite Ht in Hc1. by case_match; simplify_eq. }
  simpl.
  rewrite bind_run. unfold lift at 1, required at 1, readField_string at 1.
  destruct (checkField fields LATCHING_FIELD_NAME 1 (2 ^ 32 - 1) false) as [i|err] eqn:Hc2.
  2:{ apply checkField_throws in Hc2 as [s ->]. simpl. eauto. }
  simpl.
  rewrite bind_run. unfold lift at 1, required at 1, readField_string at 1.
  destruct (checkField fields CALLERID_FIELD_NAME 1 (2 ^ 32 - 1) false) as [j|err] eqn:Hc3.
  2:{ apply checkField_throws in Hc3 as [s ->]. simpl. eauto. }
  simpl.
  rewrite bind_run. unfold gets at 1. rewrite Hn. eauto.
Qed.

(** C10: when the record header decoded for a version 2.00 bag carries a
    [conn] that is no key of [connections_], [instantiateBuffer] throws
    [BagFormatException]; so does it for a version 1.02 bag when the topic of
    the record is unknown; and so does [instantiate] whenever the md5sum
    check lets it through.  No empty handle is returned. *)
Theorem instantiateBuffer_unknown_connection_throws (T : Type) `{MessageType T}
    (m : MessageInstance) b b1 :
  (∀ header data_size bytes_read cid,
     version_ b = 200 →
     decompressChunk (IndexEntry.chunk_pos (index_entry_ m)) b = (Ok tt, b1) →
     readMessageDataHeaderFromBuffer (current_buffer b1) (IndexEntry.offset (index_entry_ m))
     = Ok (header, data_size, bytes_read) →
     readField 4 header CONNECTION_FIELD_NAME true = Ok (Some cid) →
     connections_ b1 !! cid = None →
     instantiateBuffer (T:=T) (index_entry_ m) b
     = (Throw (BagFormatException ("Unknown connection ID: " +:+ pretty cid)), b1)
     ∧ (isType T m = true →
        instantiate T m b
        = (Throw (BagFormatException ("Unknown connection ID: " +:+ pretty cid)), b1)))
  ∧ (∀ fields topic,
       version_ b = 102 →
       readMessageDataRecord102 (IndexEntry.chunk_pos (index_entry_ m)) b = (Ok fields, b1) →
       fields !! TOPIC_FIELD_NAME = Some topic →
       topic_connection_ids_ b1 !! topic = None →
       ∃ s, instantiateBuffer (T:=T) (index_entry_ m) b = (Throw (BagFormatException s), b1)
            ∧ (isType T m = true →
               instantiate T m b = (Throw (BagFormatException s), b1))).
Proof.
  split.
  - intros header data_size bytes_read cid Hv Hd Hh Hc Hn.
    assert (instantiateBuffer (T:=T) (index_entry_ m) b
            = (Throw (BagFormatException ("Unknown connection ID: " +:+ pretty cid)), b1)) as Hi.
    { erewrite instantiateBuffer_200 by eassumption. by rewrite Hn. }
    split; [exact Hi|]. intros Ht. unfold instantiate. by rewrite Ht.
  - intros fields topic Hv Hr Ht Hn.
    destruct (instantiateBuffer_102 T (index_entry_ m) b b1 fields topic Hv Hr Ht Hn)
      as [s Hs].
    exists s. split; [exact Hs|]. intros HT. unfold instantiate. by rewrite HT.
Qed.

(** * The time range of the open chunk *)

Lemma update_chunk_time_range_spec time ci :
  Time_le (ChunkInfo.start_time ci) (ChunkInfo.end_time ci) →
  let ci' := update_chunk_time_range time ci in
  Time_le (ChunkInfo.start_time ci') (ChunkInfo.start_time ci)
  ∧ Time_le (ChunkInfo.end_time ci) (ChunkInfo.end_time ci')
  ∧ Time_le (ChunkInfo.start_time ci') time
  ∧ Time_le time (ChunkInfo.end_time ci')
  ∧ Time_le (ChunkInfo.start_time ci') (ChunkInfo.end_time ci').
Proof.
  unfold update_chunk_time_range, Time_gtb, Time_le. intros Hse.
  destruct (Time_ltb (ChunkInfo.end_time ci) time) eqn:H1; simpl.
  - apply Time_ltb_spec in H1. revert Hse. rewrite !Time_leb_spec. lia.
  - destruct (Time_ltb time (ChunkInfo.start_time ci)) eqn:H2; simpl.
    + apply Time_ltb_spec in H2. apply Time_ltb_false in H1.
      revert Hse. rewrite !Time_leb_spec. lia.
    + apply Time_ltb_false in H1, H2. revert Hse. rewrite !Time_leb_spec. lia.
Qed.

Lemma update_chunk_time_range_widens time ci t :
  Time_le (ChunkInfo.start_time ci) (ChunkInfo.end_time ci) →
  Time_le (ChunkInfo.start_time ci) t ∧ Time_le t (ChunkInfo.end_time ci) →
  Time_le (ChunkInfo.start_time (update_chunk_time_range time ci)) t
  ∧ Time_le t (ChunkInfo.end_time (update_chunk_time_range time ci)).
Proof.
  intros Hse [H1 H2].
  destruct (update_chunk_time_range_spec time ci Hse) as (Hs & He & _).
  split; eapply Time_leb_trans; eauto.
Qed.


Ltac open_file_cases :=
  unfold file_open, isOpen, ChunkedFile_write, ChunkedFile_seek in *;
  repeat match goal with
         | H : cf_open ?f = true |- context [cf_open ?f] => rewrite H
         | H : _ ∧ _ |- _ => destruct H
         end; simpl.

Lemma startWritingChunk_range time b :
  range_inv [] b → chunk_open_ b = false →
  ∃ b', startWritingChunk time b = (Ok tt, b') ∧ range_open [] b'.
Proof.
  intros (Ho & _ & _ & _) Hc. unfold startWritingChunk, writeChunkHeader, writeHeader,
    writeDataLength, write, ChunkedFile_write. run_simpl.
  unfold file_open, isOpen in Ho. rewrite Ho. simpl.
  eexists. split; [reflexivity|]. unfold range_open, file_open, isOpen. simpl.
  split; [done|]. split; [done|]. split.
  - apply update_chunk_time_range_spec. simpl. apply Time_leb_refl.
  - intros t Ht. by apply elem_of_nil in Ht.
Qed.

Ltac range_side :=
  unfold range_inv, range_open, in_chunk_range, file_open, isOpen,
    ChunkedFile_write, ChunkedFile_seek, ChunkedFile_stopWrite, never in *;
  simpl in *;
  repeat match goal with
         | H : _ ∧ _ |- _ => destruct H
         | H : cf_open ?f = true |- context [cf_open ?f] => rewrite H; simpl
         end;
  auto.

(** A step of a computation that keeps the assertion reached so far. *)
Ltac hoare_keep side :=
  lazymatch goal with
  | |- hoare ?P (mbind ?k ?m) ?Q ?E =>
      apply (hoare_bind P m k (λ _, P) Q E);
      [ change (keeps P E m); keeps_auto; side
      | let a := fresh "a" in
        intros a;
        lazymatch type of a with
        | unit => destruct a
        | prod _ _ => destruct a as [? ?]
        | _ => idtac
        end;
        cbv beta iota ]
  end.

Lemma stopWritingChunk_range cur :
  hoare (range_open cur) stopWritingChunk
    (λ _ b, file_open b ∧ chunk_open_ b = false) never.
Proof.
  eapply hoare_conseq with (P' := file_open)
    (Q' := λ _ b, file_open b ∧ chunk_open_ b = false) (E' := never);
    [|by intros b (? & _)|done|done].
  unfold stopWritingChunk.
  repeat hoare_keep range_side.
  intros b Hb. simpl. range_side.
Qed.

Lemma writeMessageDataRecord_range cur conn_id time msg :
  hoare (range_open cur) (writeMessageDataRecord conn_id time msg)
    (λ _, range_open (cur ++ [time])) never.
Proof.
  unfold writeMessageDataRecord.
  repeat hoare_keep range_side.
  intros b (Ho & Hc & Hse & Hcur). simpl.
  unfold range_open, in_chunk_range, file_open, isOpen in *. simpl.
  destruct (update_chunk_time_range_spec time (curr_chunk_info_ b) Hse)
    as (H1 & H2 & H3 & H4 & H5).
  repeat split; try done.
  - apply elem_of_app in H as [H|H].
    + eapply Time_leb_trans; [exact H1|]. by apply Hcur.
    + apply list_elem_of_singleton in H as ->. done.
  - apply elem_of_app in H as [H|H].
    + eapply Time_leb_trans; [|exact H2]. by apply Hcur.
    + apply list_elem_of_singleton in H as ->. done.
Qed.

Lemma start_chunk_if_closed_range cur time :
  hoare (range_inv cur) (start_chunk_if_closed time) (λ _, range_open cur) never.
Proof.
  unfold start_chunk_if_closed. apply hoare_gets. intros chunk_open.
  intros b [Hb Hc]. destruct chunk_open.
  - simpl. destruct Hb as (? & ? & ? & ?). unfold range_open. auto.
  - assert (cur = []) as -> by (by apply Hb).
    destruct (startWritingChunk_range time b Hb Hc) as (b' & -> & Hb'). done.
Qed.

Lemma stop_chunk_if_full_range cur :
  hoare (range_open cur) stop_chunk_if_full
    (λ _ b, range_inv (if chunk_open_ b then cur else []) b) never.
Proof.
  unfold stop_chunk_if_full.
  apply hoare_gets. intros chunk_size. apply hoare_gets. intros chunk_threshold.
  intros b [[Hb _] _].
  destruct (chunk_threshold <? chunk_size).
  - rewrite bind_run.
    pose proof (stopWritingChunk_range _ b Hb) as Hs.
    destruct (stopWritingChunk b) as [[[]|e] b1]; [|done].
    run_simpl. destruct Hs as [Ho Hc]. rewrite Hc.
    unfold range_inv, file_open, isOpen in *. simpl. rewrite Hc.
    split_and!; try done; intros ? Hin; by apply elem_of_nil in Hin.
  - simpl. destruct Hb as (Ho & Hc & Hse & Hcur). rewrite Hc.
    unfold range_inv. split_and!; auto. by rewrite Hc.
Qed.

Lemma doWrite_range cur topic time msg h :
  Time_ltb time TIME_MIN = false →
  hoare (range_inv cur) (doWrite topic time msg h)
    (λ _ b, range_inv (if chunk_open_ b then cur ++ [time] else []) b) never.
Proof.
  intros Ht. unfold doWrite. rewrite Ht.
  do 4 hoare_keep range_side.
  eapply hoare_bind; [apply start_chunk_if_closed_range|]. intros []; cbv beta.
  do 2 hoare_keep range_side.
  eapply hoare_bind; [apply writeMessageDataRecord_range|]. intros []; cbv beta.
  apply stop_chunk_if_full_range.
Qed.

Lemma track_chunk_range s w : range_inv s.2 s.1 → range_inv (track_chunk s w).2 (track_chunk s w).1.
Proof.
  destruct s as [b cur]. simpl. intros Hb. unfold track_chunk, write_call, Bag_write. simpl.
  destruct (Time_ltb (w_time w) TIME_MIN) eqn:Ht.
  - unfold doWrite. rewrite Ht. done.
  - pose proof (doWrite_range cur (w_topic w) (w_time w) (w_msg w) (w_connection_header w)
                  Ht b Hb) as H.
    by destruct (doWrite _ _ _ _ b) as [[[]|e] b'].
Qed.

(** C7: along any sequence of writes to an engine that has just been
    opened, while a chunk is open its recorded time range brackets the time
    of every message written into it:
    [curr_chunk_info_.start_time <= t <= curr_chunk_info_.end_time]. *)
Theorem open_chunk_time_range_brackets_messages b0 ws t :
  isOpen b0 = true →
  chunk_open_ b0 = false →
  chunk_open_ (foldl track_chunk (b0, []) ws).1 = true →
  t ∈ (foldl track_chunk (b0, []) ws).2 →
  Time_le (ChunkInfo.start_time (curr_chunk_info_ (foldl track_chunk (b0, []) ws).1)) t
  ∧ Time_le t (ChunkInfo.end_time (curr_chunk_info_ (foldl track_chunk (b0, []) ws).1)).
Proof.
  intros Ho Hc _ Ht.
  assert (range_inv (foldl track_chunk (b0, []) ws).2 (foldl track_chunk (b0, []) ws).1) as H.
  { assert (range_inv (b0, @nil Time).2 (b0, @nil Time).1) as H0.
    { simpl. unfold range_inv. split_and!; try done; [congruence|].
      intros ? Hin. by apply elem_of_nil in Hin. }
    revert H0. generalize (b0, @nil Time). clear.
    induction ws as [|w ws IH]; intros s Hs; simpl; [done|].
    apply IH. by apply track_chunk_range. }
  destruct H as (_ & _ & _ & H). by apply H.
Qed.

Lemma open_chunk_time_range_witness :
  Time_le (ChunkInfo.start_time (curr_chunk_info_ (foldl track_chunk (fresh_bag, []) three_writes).1)) (mkTime 3 0)
  ∧ Time_le (mkTime 3 0) (ChunkInfo.end_time (curr_chunk_info_ (foldl track_chunk (fresh_bag, []) three_writes).1)).
Proof.
  apply (open_chunk_time_range_brackets_messages fresh_bag three_writes (mkTime 3 0)).
  - vm_compute. reflexivity.
  - vm_compute. reflexivity.
  - vm_compute. reflexivity.
  - apply list_elem_of_In. vm_compute. tauto.
Defined.

(** * Connection ids *)

Lemma wrap32_small x : 0 <= x < 2 ^ 32 → wrap32 x = x.
Proof. intros H. unfold wrap32. by apply Z.mod_small. Qed.

Lemma wrap64_small x : 0 <= x < 2 ^ 64 → wrap64 x = x.
Proof. intros H. unfold wrap64. by apply Z.mod_small. Qed.

Lemma key_topic_conn_key w : key_topic (conn_key w) = w_topic w.
Proof.
  unfold conn_key, key_topic, connection_header_key.
  destruct (w_connection_header w); [|done]. by rewrite lookup_insert_eq.
Qed.

Lemma lookup_snoc_Some {A} (l : list A) x i y :
  (l ++ [x]) !! i = Some y ↔ l !! i = Some y ∨ (i = length l ∧ y = x).
Proof.
  rewrite lookup_app_Some. split.
  - intros [H|[Hi H]]; [by left|right].
    destruct (i - length l)%nat eqn:E; simpl in H; [|by destruct n].
    split; [lia|congruence].
  - intros [H|[-> ->]]; [by left|right]. split; [lia|].
    by rewrite Nat.sub_diag.
Qed.

Section resolve.
Context (ks : list (list ascii + gmap (list ascii) (list ascii))).
Context (topic : list ascii) (h : option (gmap (list ascii) (list ascii))).

Let k : list ascii + gmap (list ascii) (list ascii) :=
  match h with
  | None => inl topic
  | Some h => inr (connection_header_key topic h)
  end.

Hypothesis fits : k ∉ ks → Z.of_nat (length ks) < 2 ^ 32.

Lemma resolve_connection_ids :
  hoare (ids_inv ks) (resolve_connection topic h)
    (λ r, ids_resolved ks k r.1 r.2) never.
Proof.
  intros b (Ho & Hnd & Hsz & Hdom & Hks & Hkey).
  assert (lookup_key k b = None → k ∉ ks) as Hnew.
  { intros Hn Hin. apply list_elem_of_lookup in Hin as [i Hi].
    assert (lookup_key k b = Some (Z.of_nat i)) as Hl.
    { apply Hkey. split; [lia|]. by rewrite Nat2Z.id. }
    congruence. }
  assert (∀ conn_id, lookup_key k b = Some conn_id →
          ∃ c, connections_at conn_id b = (Ok (Some c), b)
               ∧ ids_resolved ks k (Some c) conn_id b) as Hold.
  { intros conn_id Hl. apply Hkey in Hl as [H0 Hl].
    destruct (Hks _ _ Hl) as (c & Hc & Hid & Htop).
    rewrite Z2Nat.id in Hc by done.
    exists c. unfold connections_at. rewrite Hc. split; [done|].
    unfold ids_resolved. split_and!; try done. }
  assert (∀ b', file_ b' = file_ b → connections_ b' = connections_ b →
            (∀ k' i, lookup_key k' b' = Some i ↔
                     if decide (k' = k) then i = Z.of_nat (length ks)
                     else lookup_key k' b = Some i) →
            lookup_key k b = None →
            ids_resolved ks k None (wrap32 (Z.of_nat (size (connections_ b)))) b')
    as Hfresh.
  { intros b' Hf Hc Hl Hn. specialize (Hnew Hn). unfold ids_resolved.
    rewrite Hc. unfold file_open, isOpen. rewrite Hf.
    split_and!; try done.
    - intros k' i. rewrite Hl, lookup_snoc_Some. destruct (decide (k' = k)) as [->|Hne].
      + split.
        * intros ->. split; [lia|]. right. by rewrite Nat2Z.id.
        * intros [H0 [Hi|[Hi _]]]; [|lia].
          exfalso. apply Hnew. by eapply list_elem_of_lookup_2.
      + rewrite Hkey. split; [intros [? ?]; auto|].
        intros [H0 [Hi|[_ ?]]]; [done|congruence].
    - rewrite Hsz. apply wrap32_small. specialize (fits Hnew). lia. }
  unfold resolve_connection. subst k. destruct h as [h0|].
  - rewrite bind_run. unfold gets at 1.
    destruct (header_connection_ids_ b !! connection_header_key topic h0)
      as [conn_id|] eqn:Hl.
    + rewrite bind_run. destruct (Hold conn_id Hl) as (c & -> & Hr). done.
    + run_simpl. apply Hfresh; try done.
      intros k' i. case_decide as Hd.
      * subst k'. cbn [lookup_key header_connection_ids_ set_header_connection_ids_].
        rewrite lookup_insert_eq, Hsz.
        rewrite wrap32_small by (specialize (fits (Hnew Hl)); lia).
        split; congruence.
      * destruct k' as [t|h']; [done|].
        cbn [lookup_key header_connection_ids_ set_header_connection_ids_].
        rewrite lookup_insert_ne by congruence. done.
  - rewrite bind_run. unfold gets at 1.
    destruct (topic_connection_ids_ b !! topic) as [conn_id|] eqn:Hl.
    + rewrite bind_run. destruct (Hold conn_id Hl) as (c & -> & Hr). done.
    + run_simpl. apply Hfresh; try done.
      intros k' i. case_decide as Hd.
      * subst k'. cbn [lookup_key topic_connection_ids_ set_topic_connection_ids_].
        rewrite lookup_insert_eq, Hsz.
        rewrite wrap32_small by (specialize (fits (Hnew Hl)); lia).
        split; congruence.
      * destruct k' as [t|h']; [|done].
        cbn [lookup_key topic_connection_ids_ set_topic_connection_ids_].
        rewrite lookup_insert_ne by congruence. done.
Qed.
End resolve.

Ltac ids_side :=
  unfold ids_inv, ids_resolved, lookup_key, file_open, isOpen,
    ChunkedFile_write, ChunkedFile_seek, ChunkedFile_stopWrite, never in *;
  simpl in *;
  repeat match goal with
         | H : _ ∧ _ |- _ => destruct H
         | H : cf_open ?f = true |- context [cf_open ?f] => rewrite H; simpl
         end;
  repeat match goal with |- _ ∧ _ => split end;
  auto.

Section doWrite_ids.
Context (ks : list (list ascii + gmap (list ascii) (list ascii))).
Context (topic : list ascii) (time : Time) (msg : Message).
Context (h : option (gmap (list ascii) (list ascii))).

Let k : list ascii + gmap (list ascii) (list ascii) :=
  match h with
  | None => inl topic
  | Some h => inr (connection_header_key topic h)
  end.

Hypothesis fits : k ∉ ks → Z.of_nat (length ks) < 2 ^ 32.
Hypothesis time_ok : Time_ltb time TIME_MIN = false.

Lemma new_connection_ids conn_id c b :
  ConnectionInfo.id c = conn_id → ConnectionInfo.topic c = topic →
  ids_resolved ks k None conn_id b →
  ids_inv (ks ++ [k]) (set_connections_ (<[conn_id := Some c]> (connections_ b)) b).
Proof.
  intros Hid Htop (Ho & Hnd & Hsz & Hdom & Hks & Hkey & Hnew & ->).
  assert (connections_ b !! Z.of_nat (length ks) = None) as Hfree.
  { destruct (connections_ b !! Z.of_nat (length ks)) as [p|] eqn:Hp; [|done].
    apply Hdom in Hp. lia. }
  unfold ids_inv. split_and!; try done.
  - apply NoDup_app. split_and!; [done| |apply NoDup_singleton].
    intros x Hx Hx'. apply list_elem_of_singleton in Hx' as ->. done.
  - simpl. rewrite map_size_insert_None by done. rewrite length_app, Hsz. simpl. lia.
  - intros i p. simpl. rewrite length_app. simpl.
    destruct (decide (Z.of_nat (length ks) = i)) as [<-|Hne].
    + intros _. lia.
    + rewrite lookup_insert_ne by done. intros Hp. apply Hdom in Hp. lia.
  - intros i k' Hi. simpl. apply lookup_snoc_Some in Hi as [Hi|[-> ->]].
    + rewrite lookup_insert_ne.
      2:{ apply lookup_lt_Some in Hi. lia. }
      by apply Hks.
    + rewrite lookup_insert_eq. exists c. split_and!; try done.
      rewrite Htop. subst k. destruct h as [h0|]; simpl; [|done].
      unfold connection_header_key. by rewrite lookup_insert_eq.
Qed.

Lemma connection_record_if_new_ids connection_info conn_id :
  hoare (ids_resolved ks k connection_info conn_id)
    (connection_record_if_new connection_info conn_id topic msg h)
    (λ _, ids_inv (if decide (k ∈ ks) then ks else ks ++ [k])) never.
Proof.
  unfold connection_record_if_new. destruct connection_info as [c|].
  - intros b Hb. simpl. destruct Hb as (Ho & Hnd & Hsz & Hdom & Hks & Hkey & H0 & Hk & Hc).
    rewrite decide_True by (by eapply list_elem_of_lookup_2).
    by unfold ids_inv.
  - eapply hoare_conseq with (P' := λ b, ids_resolved ks k None conn_id b)
      (Q' := λ _, ids_inv (ks ++ [k])) (E' := never); try done.
    + eapply hoare_bind with (Q := λ _, ids_inv (ks ++ [k])).
      * intros b Hb. simpl. by apply new_connection_ids.
      * intros []. cbv beta. repeat hoare_keep ids_side. by intros b Hb.
    + intros a b Hb. rewrite decide_False; [done|].
      destruct Hb as (_ & Hnd & _). apply NoDup_app in Hnd as (_ & Hnd & _).
      intros Hin. apply (Hnd _ Hin). by apply list_elem_of_singleton.
Qed.

Lemma doWrite_ids :
  hoare (ids_inv ks) (doWrite topic time msg h)
    (λ _, ids_inv (if decide (k ∈ ks) then ks else ks ++ [k])) never.
Proof.
  unfold doWrite. rewrite time_ok.
  hoare_keep ids_side.
  eapply hoare_bind; [by apply resolve_connection_ids|].
  intros [ci conn_id]. cbv beta iota. simpl.
  do 3 hoare_keep ltac:(destruct ci; ids_side).
  eapply hoare_bind; [apply connection_record_if_new_ids|].
  intros connection_info. cbv beta.
  change (keeps (ids_inv (if decide (k ∈ ks) then ks else ks ++ [k])) never
            (add_to_indexes connection_info time ;;
             writeMessageDataRecord conn_id time msg ;;
             stop_chunk_if_full)).
  keeps_auto; ids_side.
Qed.
End doWrite_ids.

Section distinct.
Context {A : Type} `{EqDecision A}.

Let dstep (ks : list A) (k : A) : list A := if decide (k ∈ ks) then ks else ks ++ [k].

Lemma foldl_dstep_length (ks l : list A) : (length ks <= length (foldl dstep ks l))%nat.
Proof.
  revert ks. induction l as [|x l IH]; intros ks; simpl; [done|].
  etrans; [|apply IH]. unfold dstep. case_decide; [done|]. rewrite length_app. lia.
Qed.

Lemma elem_of_foldl_dstep (ks l : list A) (x : A) : x ∈ foldl dstep ks l ↔ x ∈ ks ∨ x ∈ l.
Proof.
  revert ks. induction l as [|y l IH]; intros ks; simpl.
  - rewrite elem_of_nil. tauto.
  - rewrite IH, elem_of_cons. unfold dstep. case_decide.
    + split; [tauto|]. intros [?|[->|?]]; auto.
    + rewrite elem_of_app, list_elem_of_singleton. tauto.
Qed.

Lemma elem_of_distinct (l : list A) (x : A) : x ∈ distinct l ↔ x ∈ l.
Proof.
  unfold distinct. change (x ∈ foldl dstep [] l ↔ x ∈ l).
  rewrite elem_of_foldl_dstep, elem_of_nil. tauto.
Qed.
End distinct.

Lemma after_writes_ids ws ks b :
  ids_inv ks b →
  Z.of_nat (length (foldl (λ ks k, if decide (k ∈ ks) then ks else ks ++ [k]) ks
                      (conn_key <$> accepted ws))) <= 2 ^ 32 →
  ids_inv (foldl (λ ks k, if decide (k ∈ ks) then ks else ks ++ [k]) ks
             (conn_key <$> accepted ws))
    (after_writes ws b).
Proof.
  revert ks b. induction ws as [|w ws IH]; intros ks b Hb Hlen; [done|].
  unfold accepted in *. rewrite filter_cons in *. simpl.
  destruct (decide (Time_ltb (w_time w) TIME_MIN = false)) as [Ht|Ht].
  - simpl in *.
    assert (hoare (ids_inv ks) (write_call w)
              (λ _, ids_inv (if decide (conn_key w ∈ ks) then ks else ks ++ [conn_key w]))
              never) as Hw.
    { unfold write_call, Bag_write.
      apply (doWrite_ids ks (w_topic w) (w_time w) (w_msg w) (w_connection_header w));
        [|done].
      intros Hnew. change (conn_key w ∉ ks) in Hnew.
      pose proof (foldl_dstep_length
                    (if decide (conn_key w ∈ ks) then ks else ks ++ [conn_key w])
                    (conn_key <$> filter (λ w, Time_ltb (w_time w) TIME_MIN = false) ws))
        as Hmono.
      rewrite decide_False in Hmono by done. rewrite length_app in Hmono. simpl in Hmono.
      rewrite decide_False in Hlen by done. unfold fmap in Hmono. lia. }
    specialize (Hw b Hb). destruct (write_call w b) as [[[]|e] b']; [|done].
    simpl. by apply IH.
  - apply not_false_is_true in Ht.
    assert (write_call w b = (Throw (BagException
              "Tried to insert a message with time less than ros::TIME_MIN"), b)) as ->.
    { unfold write_call, Bag_write, doWrite. by rewrite Ht. }
    simpl. by apply IH.
Qed.

Lemma connection_header_key_topic (t1 t2 : list ascii)
    (h : gmap (list ascii) (list ascii)) :
  t1 ≠ t2 → connection_header_key t1 h ≠ connection_header_key t2 h.
Proof.
  intros Hne Heq. apply Hne.
  assert (connection_header_key t1 h !! str "topic" = connection_header_key t2 h !! str "topic")
    as H by (by rewrite Heq).
  unfold connection_header_key in H. rewrite !lookup_insert_eq in H. congruence.
Qed.

(** C5: along the writes to a freshly opened bag, connection ids are dense
    and given in the order in which the connections are created, from 0: the
    identity met as the n-th distinct one (counting from 0) has id [n], and
    [connections_[n]] is its connection.  The identity of a write is its
    topic when no connection header is given, and a copy of the header with
    the topic put into it otherwise, so that two writes with the same
    header and different topics have different ids. *)
Theorem connection_ids_dense_in_write_order b0 ws :
  isOpen b0 = true →
  connections_ b0 = ∅ →
  topic_connection_ids_ b0 = ∅ →
  header_connection_ids_ b0 = ∅ →
  Z.of_nat (length (distinct (conn_key <$> accepted ws))) <= 2 ^ 32 →
  (∀ n k, distinct (conn_key <$> accepted ws) !! n = Some k →
     lookup_key k (after_writes ws b0) = Some (Z.of_nat n)
     ∧ ∃ c, connections_ (after_writes ws b0) !! Z.of_nat n = Some (Some c)
            ∧ ConnectionInfo.id c = Z.of_nat n
            ∧ ConnectionInfo.topic c = key_topic k)
  ∧ (∀ w, w ∈ accepted ws →
       key_topic (conn_key w) = w_topic w
       ∧ ∃ n, distinct (conn_key <$> accepted ws) !! n = Some (conn_key w))
  ∧ (∀ w1 w2 h, w1 ∈ accepted ws → w2 ∈ accepted ws →
       w_connection_header w1 = Some h → w_connection_header w2 = Some h →
       w_topic w1 ≠ w_topic w2 →
       ∃ i1 i2, lookup_key (conn_key w1) (after_writes ws b0) = Some i1
                ∧ lookup_key (conn_key w2) (after_writes ws b0) = Some i2
                ∧ i1 ≠ i2).
Proof.
  intros Ho Hc Ht Hh Hlen.
  assert (ids_inv [] b0) as H0.
  { unfold ids_inv, file_open. rewrite Hc. split_and!; try done.
    - apply NoDup_nil_2.
    - intros k i. destruct k; simpl; rewrite ?Ht, ?Hh, lookup_empty;
        (split; [done|by intros [_ ?]]). }
  pose proof (after_writes_ids ws [] b0 H0 Hlen) as (_ & Hnd & _ & _ & Hks & Hkey).
  change (foldl _ [] (conn_key <$> accepted ws)) with (distinct (conn_key <$> accepted ws))
    in *.
  assert (∀ w, w ∈ accepted ws → ∃ n, distinct (conn_key <$> accepted ws) !! n
                                      = Some (conn_key w)) as Hin.
  { intros w Hw. apply list_elem_of_lookup, elem_of_distinct, list_elem_of_fmap. eauto. }
  split_and!.
  - intros n k Hn. split; [|by apply Hks].
    apply Hkey. split; [lia|]. by rewrite Nat2Z.id.
  - intros w Hw. split; [apply key_topic_conn_key|by apply Hin].
  - intros w1 w2 h Hw1 Hw2 Hh1 Hh2 Hne.
    destruct (Hin w1 Hw1) as [n1 Hn1]. destruct (Hin w2 Hw2) as [n2 Hn2].
    exists (Z.of_nat n1), (Z.of_nat n2). split_and!.
    + apply Hkey. split; [lia|]. by rewrite Nat2Z.id.
    + apply Hkey. split; [lia|]. by rewrite Nat2Z.id.
    + intros Heq. apply Nat2Z.inj in Heq. subst n2.
      rewrite Hn1 in Hn2. injection Hn2 as Hk. unfold conn_key in Hk.
      rewrite Hh1, Hh2 in Hk. injection Hk as Hk.
      by apply connection_header_key_topic in Hk.
Qed.

Lemma connection_ids_dense_witness :
  lookup_key (inr (connection_header_key (str "/c") caller_header))
    (after_writes four_writes fresh_bag) = Some 2.
Proof.
  refine (proj1 (proj1 (connection_ids_dense_in_write_order fresh_bag four_writes
                          _ _ _ _ _) 2%nat _ _)).
  - vm_compute. reflexivity.
  - vm_compute. reflexivity.
  - vm_compute. reflexivity.
  - vm_compute. reflexivity.
  - vm_compute. discriminate.
  - vm_compute. reflexivity.
Defined.

(** * Integers in memory *)

Lemma length_le_bytes n x : length (le_bytes n x) = n.
Proof. revert x. induction n as [|n IH]; intros x; simpl; [done|]. by rewrite IH. Qed.

Lemma Z_of_byte_of_Z x : Z_of_byte (byte_of_Z x) = x mod 256.
Proof.
  unfold Z_of_byte, byte_of_Z.
  assert (0 <= x mod 256 < 256) as Hx by (apply Z.mod_pos_bound; lia).
  rewrite N_ascii_embedding by lia. lia.
Qed.

Lemma Z_of_byte_range a : 0 <= Z_of_byte a < 256.
Proof.
  unfold Z_of_byte. pose proof (N_ascii_bounded a). lia.
Qed.

Lemma le_value_le_bytes n x : le_value (le_bytes n x) = x mod 256 ^ Z.of_nat n.
Proof.
  revert x. induction n as [|n IH]; intros x.
  - simpl. by rewrite Z.mod_1_r.
  - cbn [le_bytes le_value]. rewrite IH, Z_of_byte_of_Z.
    rewrite Nat2Z.inj_succ, Z.pow_succ_r by lia.
    rewrite Z.rem_mul_r; [done|lia|]. apply Z.pow_pos_nonneg; lia.
Qed.

Lemma le_value_range bs : 0 <= le_value bs < 256 ^ Z.of_nat (length bs).
Proof.
  induction bs as [|c bs IH]; [simpl; lia|].
  cbn [le_value length]. rewrite Nat2Z.inj_succ, Z.pow_succ_r by lia.
  pose proof (Z_of_byte_range c). lia.
Qed.

Lemma le_value_le_bytes_4 x : 0 <= x < 2 ^ 32 → le_value (le_bytes 4 x) = x.
Proof. intros H. rewrite le_value_le_bytes. apply Z.mod_small. simpl. lia. Qed.

Lemma le_value_le_bytes_8 x : 0 <= x < 2 ^ 64 → le_value (le_bytes 8 x) = x.
Proof. intros H. rewrite le_value_le_bytes. apply Z.mod_small. simpl. lia. Qed.

Lemma le_value_le_bytes_1 x : 0 <= x < 256 → le_value (le_bytes 1 x) = x.
Proof. intros H. rewrite le_value_le_bytes. apply Z.mod_small. simpl. lia. Qed.

Lemma byte_of_Z_mod x y : x mod 256 = y mod 256 → byte_of_Z x = byte_of_Z y.
Proof. unfold byte_of_Z. by intros ->. Qed.

Lemma le_bytes_congr n x y :
  x mod 256 ^ Z.of_nat n = y mod 256 ^ Z.of_nat n → le_bytes n x = le_bytes n y.
Proof.
  revert x y. induction n as [|n IH]; intros x y Hxy; [done|].
  rewrite Nat2Z.inj_succ, Z.pow_succ_r in Hxy by lia.
  assert (0 < 256 ^ Z.of_nat n) as Hpos by (apply Z.pow_pos_nonneg; lia).
  rewrite !Z.rem_mul_r in Hxy by lia.
  pose proof (Z.mod_pos_bound x 256). pose proof (Z.mod_pos_bound y 256).
  cbn [le_bytes]. f_equal.
  - apply byte_of_Z_mod. lia.
  - apply IH. lia.
Qed.

Lemma le_bytes_wrap32 x : le_bytes 4 (wrap32 x) = le_bytes 4 x.
Proof.
  apply le_bytes_congr. unfold wrap32.
  change (256 ^ Z.of_nat 4) with (2 ^ 32). by rewrite Z.mod_mod by lia.
Qed.

Lemma le_bytes_wrap64 x : le_bytes 8 (wrap64 x) = le_bytes 8 x.
Proof.
  apply le_bytes_congr. unfold wrap64.
  change (256 ^ Z.of_nat 8) with (2 ^ 64). by rewrite Z.mod_mod by lia.
Qed.

(** * The header codec *)

Lemma length_encode_field kv : length (encode_field kv) = field_length kv.
Proof.
  unfold encode_field, field_length. rewrite length_app, length_le_bytes, length_app.
  simpl. lia.
Qed.

Lemma length_encode_list (l : list (list ascii * list ascii)) :
  length (concat (encode_field <$> l)) = sum_list_with field_length l.
Proof.
  induction l as [|kv l IH]; [done|].
  change (concat (encode_field <$> kv :: l))
    with (encode_field kv ++ concat (encode_field <$> l)).
  rewrite length_app, length_encode_field, IH. done.
Qed.

Lemma length_encode_fields fields : length (encode_fields fields) = fields_length fields.
Proof. apply length_encode_list. Qed.

Lemma length_header_bytes fields :
  length (header_bytes fields) = (4 + fields_length fields)%nat.
Proof.
  unfold header_bytes. by rewrite length_app, length_le_bytes, length_encode_fields.
Qed.

Lemma fields_length_empty : fields_length ∅ = 0%nat.
Proof. unfold fields_length. by rewrite map_to_list_empty. Qed.

Lemma fields_length_insert fields k v :
  fields !! k = None →
  fields_length (<[k := v]> fields)
  = (4 + (length k + 1 + length v) + fields_length fields)%nat.
Proof.
  intros Hk. unfold fields_length. by rewrite (map_to_list_insert _ _ _ Hk).
Qed.

Lemma split_field_app (k v : list ascii) :
  "="%char ∉ k → split_field (k ++ "="%char :: v) = Some (k, v).
Proof.
  induction k as [|c k IH]; intros Hk.
  - change (split_field ("="%char :: v) = Some ([], v)).
    unfold split_field. by destruct (decide ("="%char = "="%char)).
  - apply not_elem_of_cons in Hk as [Hc Hk].
    change (split_field (c :: (k ++ "="%char :: v)) = Some (c :: k, v)).
    unfold split_field; fold split_field.
    destruct (decide (c = "="%char)) as [->|_]; [done|]. by rewrite IH.
Qed.

Lemma foldl_insert_list_to_map (l : list (list ascii * list ascii))
    (acc : gmap (list ascii) (list ascii)) :
  NoDup l.*1 →
  foldl (λ a kv, <[kv.1 := kv.2]> a) acc l = list_to_map l ∪ acc.
Proof.
  revert acc. induction l as [|[k v] l IH]; intros acc Hnd; simpl.
  - by rewrite (left_id_L ∅ (∪)).
  - apply NoDup_cons in Hnd as [Hk Hnd]. rewrite IH by done.
    rewrite <- insert_union_l. symmetry. apply insert_union_r.
    by apply not_elem_of_list_to_map_1.
Qed.

Lemma parse_fields_step fuel (bs : list ascii) acc :
  (4 ≤ length bs)%nat →
  parse_fields (S fuel) bs acc
  = let field_len := Z.to_nat (le_value (take 4 bs)) in
    let field := take field_len (drop 4 bs) in
    if (length field <? field_len)%nat then None
    else
      match split_field field with
      | None => None
      | Some (name, value) =>
          match acc !! name with
          | Some _ => None
          | None => parse_fields fuel (drop (4 + field_len) bs) (<[name := value]> acc)
          end
      end.
Proof.
  intros Hlen. destruct bs as [|c bs]; [simpl in Hlen; lia|].
  unfold parse_fields; fold parse_fields.
  destruct (Nat.ltb_spec (length (c :: bs)) 4); [lia|done].
Qed.

Lemma parse_fields_encode (l : list (list ascii * list ascii)) :
  ∀ fuel acc,
    (length l ≤ fuel)%nat →
    NoDup l.*1 →
    (∀ k v, (k, v) ∈ l →
       ("="%char ∉ k) ∧ acc !! k = None ∧ Z.of_nat (length k + 1 + length v) < 2 ^ 32) →
    parse_fields fuel (concat (encode_field <$> l)) acc
    = Some (foldl (λ a kv, <[kv.1 := kv.2]> a) acc l).
Proof.
  induction l as [|[k v] l IH]; intros fuel acc Hfuel Hnd Hl.
  - by destruct fuel.
  - destruct fuel as [|fuel]; [simpl in Hfuel; lia|].
    destruct (Hl k v) as (Hk & Hacc & Hlen); [left|].
    apply NoDup_cons in Hnd as [Hkl Hnd].
    assert (length (k ++ "="%char :: v) = (length k + 1 + length v)%nat) as Hbody
      by (rewrite length_app; simpl; lia).
    change (concat (encode_field <$> (k, v) :: l))
      with ((le_bytes 4 (Z.of_nat (length (k ++ "="%char :: v)))
             ++ k ++ "="%char :: v) ++ concat (encode_field <$> l)).
    pose proof (split_field_app k v Hk) as Hsplit.
    remember (k ++ "="%char :: v) as body eqn:Ebody.
    remember (concat (encode_field <$> l)) as rest eqn:Erest.
    rewrite <- !(assoc_L (++)).
    rewrite parse_fields_step by (rewrite length_app, length_le_bytes; lia).
    cbv zeta.
    rewrite (take_app_length' (le_bytes 4 _)) by by rewrite length_le_bytes.
    rewrite le_value_le_bytes_4 by lia. rewrite Nat2Z.id.
    rewrite (drop_app_length' (le_bytes 4 _)) by by rewrite length_le_bytes.
    rewrite (take_app_length body), Nat.ltb_irrefl, Hsplit, Hacc.
    replace (drop (4 + length body) (le_bytes 4 (Z.of_nat (length body)) ++ body ++ rest))
      with rest.
    2:{ rewrite (assoc_L (++)). symmetry. apply drop_app_length'.
        by rewrite length_app, length_le_bytes. }
    subst rest.
    apply IH; [simpl in Hfuel; lia|done|].
    intros k' v' Hin. destruct (Hl k' v') as (Hk' & Hacc' & Hlen'); [by right|].
    split_and!; [done| |done].
    rewrite lookup_insert_ne; [done|].
    intros Heq. apply Hkl. apply list_elem_of_fmap. exists (k', v'). by split.
Qed.

Lemma sum_list_with_field_length_ge (l : list (list ascii * list ascii)) :
  (length l ≤ sum_list_with field_length l)%nat.
Proof.
  induction l as [|kv l IH]; [done|].
  change (S (length l) ≤ field_length kv + sum_list_with field_length l)%nat.
  unfold field_length at 1. lia.
Qed.

Lemma Header_parse_encode fields :
  good_names fields →
  Z.of_nat (fields_length fields) < 2 ^ 32 →
  Header_parse (encode_fields fields) = Some fields.
Proof.
  intros Hgood Hlen. unfold Header_parse, encode_fields.
  rewrite parse_fields_encode.
  - rewrite foldl_insert_list_to_map by apply NoDup_fst_map_to_list.
    by rewrite list_to_map_to_list, (right_id_L ∅ (∪)).
  - rewrite length_encode_list. apply sum_list_with_field_length_ge.
  - apply NoDup_fst_map_to_list.
  - intros k v Hin. apply elem_of_map_to_list in Hin.
    split_and!; [by eapply Hgood|done|].
    assert (field_length (k, v) ≤ fields_length fields)%nat as Hle.
    { unfold fields_length.
      apply (sum_list_with_in _ field_length). by apply elem_of_map_to_list. }
    unfold field_length in Hle. simpl in Hle. lia.
Qed.

(** * Writing to the file *)


Lemma write_at_end (c bs : list ascii) : write_at c (length c) bs = c ++ bs.
Proof.
  unfold write_at. rewrite take_ge by lia. rewrite Nat.sub_diag. simpl.
  rewrite drop_ge by lia. by rewrite (right_id_L [] (++)).
Qed.

Lemma write_at_end_run bs b : at_end b → write bs b = (Ok tt, append_file bs b).
Proof.
  intros [Hopen Hoff]. unfold write, ChunkedFile_write, append_file.
  rewrite Hopen, Hoff. unfold fsize. by rewrite write_at_end.
Qed.

Lemma at_end_append_file bs b : at_end (append_file bs b).
Proof. split; [done|]. unfold append_file, fsize. simpl. by rewrite length_app. Qed.

Lemma append_file_append bs1 bs2 b :
  append_file bs2 (append_file bs1 b) = append_file (bs1 ++ bs2) b.
Proof.
  unfold append_file, fsize. simpl.
  rewrite !length_app, <- (assoc_L (++)), Nat.add_assoc. done.
Qed.

Lemma fsize_append_file bs b : fsize (append_file bs b) = (fsize b + length bs)%nat.
Proof. unfold append_file, fsize. simpl. by rewrite length_app. Qed.


(** * Computations that do not shrink the file *)


Lemma grows_preserves {A : Type} (m : M A) n :
  grows m → preserves (λ b, (n ≤ fsize b)%nat) m.
Proof.
  intros H b Hb. specialize (H b). destruct (m b) as [[a|e] b']; simpl in *; lia.
Qed.




(** * The headers of the records *)

Ltac names_ne := let H := fresh in intros H; vm_compute in H; discriminate H.

Ltac lookup_field :=
  repeat first [ rewrite lookup_insert_eq
               | rewrite lookup_insert_ne by names_ne
               | rewrite lookup_empty ].

Ltac fields_length_simpl :=
  repeat (rewrite fields_length_insert by (lookup_field; done));
  rewrite ?fields_length_empty.

Lemma good_names_empty : good_names ∅.
Proof. intros k v Hk. by rewrite lookup_empty in Hk. Qed.

Lemma good_names_insert fields (k v : list ascii) :
  ("="%char ∉ k) → good_names fields → good_names (<[k := v]> fields).
Proof.
  intros Hk Hm k' v' Hl. destruct (decide (k = k')) as [<-|Hne]; [done|].
  rewrite lookup_insert_ne in Hl by done. by eapply Hm.
Qed.

Ltac good_name := apply (bool_decide_unpack _); vm_compute; exact I.

Ltac good_names_auto :=
  repeat first [ apply good_names_empty
               | apply good_names_insert; [good_name|] ].

Lemma length_toHeaderString n x : length (toHeaderString n x) = n.
Proof. apply length_le_bytes. Qed.

Lemma length_toHeaderString_Time t : length (toHeaderString_Time t) = 8%nat.
Proof. unfold toHeaderString_Time. by rewrite length_app, !length_le_bytes. Qed.

Lemma length_chunk_record_header size :
  length (chunk_record_header size) = chunk_header_length.
Proof.
  unfold chunk_record_header, chunk_header_fields.
  rewrite length_app, length_header_bytes, length_le_bytes.
  fields_length_simpl. rewrite !length_toHeaderString. reflexivity.
Qed.


(** * The writer, block by block *)


Ltac bag_unfold_in H :=
  unfold modify, gets, throw, lift, append_file, at_end, fsize, getChunkOffset,
    ChunkedFile_getOffset, ChunkedFile_setWriteMode,
    set_mode_, set_file_, set_version_, set_chunk_threshold_, set_bag_revision_,
    set_file_size_, set_file_header_pos_, set_index_data_pos_, set_connection_count_,
    set_chunk_count_, set_chunk_open_, set_curr_chunk_info_, set_curr_chunk_data_pos_,
    set_topic_connection_ids_, set_header_connection_ids_, set_connections_, set_chunks_,
    set_connection_indexes_, set_curr_chunk_connection_indexes_, set_record_buffer_,
    set_decompress_buffer_, set_outgoing_chunk_buffer_, set_decompressed_chunk_ in H.


Ltac bag_cbn_in H :=
  bag_unfold_in H;
  cbn [fst snd
       mode_ file_ version_ chunk_threshold_ bag_revision_ file_size_ file_header_pos_
       index_data_pos_ connection_count_ chunk_count_ chunk_open_ curr_chunk_info_
       curr_chunk_data_pos_ topic_connection_ids_ header_connection_ids_ connections_
       chunks_ connection_indexes_ curr_chunk_connection_indexes_ record_buffer_
       decompress_buffer_ outgoing_chunk_buffer_ decompressed_chunk_
       cf_open cf_contents cf_offset cf_stream_start] in H.




Lemma update_chunk_time_range_pos time ci :
  ChunkInfo.pos (update_chunk_time_range time ci) = ChunkInfo.pos ci.
Proof.
  unfold update_chunk_time_range.
  destruct (Time_gtb _ _); [done|]. by destruct (Time_ltb _ _).
Qed.

Lemma update_chunk_time_range_counts time ci :
  ChunkInfo.connection_counts (update_chunk_time_range time ci)
  = ChunkInfo.connection_counts ci.
Proof.
  unfold update_chunk_time_range.
  destruct (Time_gtb _ _); [done|]. by destruct (Time_ltb _ _).
Qed.

Lemma writeHeader_run fields b :
  at_end b → writeHeader fields b = (Ok tt, append_file (header_bytes fields) b).
Proof. apply write_at_end_run. Qed.

Lemma writeDataLength_run n b :
  at_end b → writeDataLength n b = (Ok tt, append_file (le_bytes 4 n) b).
Proof. apply write_at_end_run. Qed.

Lemma writeConnectionRecord_run c encrypt b :
  at_end b →
  writeConnectionRecord c encrypt b = (Ok tt, append_file (connection_record c) b).
Proof.
  intros Hb. unfold writeConnectionRecord, connection_record, mbind, M_bind.
  rewrite writeHeader_run by done.
  rewrite writeHeader_run by apply at_end_append_file.
  by rewrite append_file_append.
Qed.


(** * Header fields (bag.h, lines 384-396) *)

Lemma checkField_value fields name bs (min_len max_len : Z) required :
  fields !! name = Some bs →
  min_len <= Z.of_nat (length bs) <= max_len →
  checkField fields name min_len max_len required = Ok (Some bs).
Proof.
  intros Hl Hlen. unfold checkField. rewrite Hl.
  destruct (Z.ltb_spec (Z.of_nat (length bs)) min_len); [lia|].
  destruct (Z.ltb_spec max_len (Z.of_nat (length bs))); [lia|]. done.
Qed.

(** X1: a field written with [toHeaderString<T>] is read back by
    [readField<T>] as the value of its [sizeof(T)] bytes, whatever the other
    fields of the header are and whether the field is required or not. *)
Theorem readField_toHeaderString n x fields name required :
  readField n (<[name := toHeaderString n x]> fields) name required
  = Ok (Some (x mod 256 ^ Z.of_nat n)).
Proof.
  unfold readField.
  rewrite (checkField_value _ _ (toHeaderString n x)).
  - cbn. rewrite take_ge by (rewrite length_toHeaderString; lia).
    unfold toHeaderString. by rewrite le_value_le_bytes.
  - apply lookup_insert_eq.
  - rewrite length_toHeaderString. lia.
Qed.

(** X2: [readField<T>] yields a value exactly for a field that is there
    with [sizeof(T)] bytes, and the value is that of the bytes; it yields no
    value without an error exactly for a field that is missing and not
    required; every other case is a format error. *)
Theorem readField_cases n fields name required :
  (∀ v, readField n fields name required = Ok (Some v)
        ↔ ∃ bs, fields !! name = Some bs ∧ length bs = n ∧ v = le_value bs)
  ∧ (readField n fields name required = Ok None
     ↔ fields !! name = None ∧ required = false)
  ∧ (∀ e, readField n fields name required = Throw e → ∃ s, e = BagFormatException s).
Proof.
  unfold readField, checkField, mbind, outcome_bind, mret, outcome_ret.
  destruct (fields !! name) as [bs|] eqn:Hl.
  - destruct (Z.ltb_spec (Z.of_nat (length bs)) (Z.of_nat n)) as [Hlt|Hge]; cbn.
    + split_and!.
      * intros v. split; [done|]. intros (bs' & Hbs & Hlen & _). simplify_eq. lia.
      * split; [done|]. by intros [? _].
      * intros e He. simplify_eq. eauto.
    + destruct (Z.ltb_spec (Z.of_nat n) (Z.of_nat (length bs))) as [Hgt|Hle]; cbn.
      * split_and!.
        -- intros v. split; [done|]. intros (bs' & Hbs & Hlen & _). simplify_eq. lia.
        -- split; [done|]. by intros [? _].
        -- intros e He. simplify_eq. eauto.
      * assert (length bs = n) as Hn by lia. split_and!.
        -- intros v. rewrite take_ge by lia. split.
           ++ intros Hv. simplify_eq. by exists bs.
           ++ intros (bs' & Hbs & Hlen & ->). by simplify_eq.
        -- split; [done|]. by intros [? _].
        -- intros e He. done.
  - destruct required; cbn.
    + split_and!.
      * intros v. split; [done|]. by intros (bs' & Hbs & _).
      * split; [done|]. by intros [_ ?].
      * intros e He. simplify_eq. eauto.
    + split_and!.
      * intros v. split; [done|]. by intros (bs' & Hbs & _).
      * done.
      * done.
Qed.

(** * Times (ros/time.h, lines 158-162) *)

(** X3: [toNSec] is exact, its 64-bit arithmetic never wraps around for the
    32-bit fields of a time, and on normalised times it orders as the times
    are ordered. *)
Theorem toNSec_orders_times (a b : Time) :
  Time_fields a → Time_fields b →
  toNSec a = sec a * 1000000000 + nsec a
  ∧ (nsec a < 10 ^ 9 → nsec b < 10 ^ 9 → (toNSec a <? toNSec b) = Time_ltb a b).
Proof.
  intros [Hsa Hna] [Hsb Hnb].
  assert (∀ t, 0 <= sec t < 2 ^ 32 → 0 <= nsec t < 2 ^ 32 →
               toNSec t = sec t * 1000000000 + nsec t) as Hexact.
  { intros t Hs Hn. unfold toNSec.
    rewrite (wrap64_small (sec t)) by lia. rewrite (wrap64_small (nsec t)) by lia.
    rewrite (wrap64_small (sec t * 1000000000)) by lia.
    apply wrap64_small. lia. }
  split; [by apply Hexact|]. intros Ha Hb.
  rewrite !Hexact by done. unfold Time_ltb.
  destruct (Z.ltb_spec (sec a) (sec b)); cbn.
  - apply Z.ltb_lt. lia.
  - destruct (Z.eqb_spec (sec a) (sec b)) as [->|Hne]; cbn.
    + destruct (Z.ltb_spec (nsec a) (nsec b)); [apply Z.ltb_lt|apply Z.ltb_ge]; lia.
    + apply Z.ltb_ge. lia.
Qed.

Lemma toNSec_orders_times_witness :
  toNSec (mkTime 1 999999999) = 1 * 1000000000 + 999999999
  ∧ (999999999 < 10 ^ 9 → 0 < 10 ^ 9 →
     (toNSec (mkTime 1 999999999) <? toNSec (mkTime 2 0))
     = Time_ltb (mkTime 1 999999999) (mkTime 2 0)).
Proof.
  apply (toNSec_orders_times (mkTime 1 999999999) (mkTime 2 0));
    unfold Time_fields; cbn; lia.
Defined.

(** X4: the time check of [doWrite] turns away the zero time and no other:
    for a time with unsigned fields the write throws the exception of the
    check, with the state as it was, exactly when [isZero] holds. *)
Theorem doWrite_rejects_exactly_zero_time topic time msg h b :
  0 <= sec time → 0 <= nsec time →
  (isZero time = true
   ↔ doWrite topic time msg h b
     = (Throw (BagException "Tried to insert a message with time less than ros::TIME_MIN"),
        b)).
Proof.
  intros Hs Hn.
  assert (Time_ltb time TIME_MIN = isZero time) as Hz.
  { unfold Time_ltb, isZero, TIME_MIN. cbn [sec nsec].
    destruct (Z.ltb_spec (sec time) 0); [lia|].
    destruct (Z.eqb_spec (sec time) 0); cbn; [|done].
    destruct (Z.ltb_spec (nsec time) 1), (Z.eqb_spec (nsec time) 0); done || lia. }
  rewrite <- Hz. split.
  - intros Ht. unfold doWrite. by rewrite Ht.
  - intros Hw. destruct (Time_ltb time TIME_MIN) eqn:Ht; [done|].
    pose proof (doWrite_throws_io topic time msg h Ht b I) as H.
    rewrite Hw in H. by destruct H as [s ?].
Qed.

Lemma doWrite_rejects_exactly_zero_time_witness :
  isZero (mkTime 0 0) = true
  ↔ doWrite (str "/a") (mkTime 0 0) (msg_of (str "x")) None fresh_bag
    = (Throw (BagException "Tried to insert a message with time less than ros::TIME_MIN"),
       fresh_bag).
Proof.
  apply (doWrite_rejects_exactly_zero_time (str "/a") (mkTime 0 0) (msg_of (str "x")) None
           fresh_bag); cbn; lia.
Defined.

(** * Reading with a version the engine does not know (bag.h, lines 421-422
      and 506-507) *)

(** X5: in an engine whose version is neither 2.00 nor 1.02, both
    [readMessageDataIntoStream] and [instantiateBuffer] throw the format
    error that names the version; the state and the stream are left as they
    were. *)
Theorem unhandled_version_is_format_error (T : Type) `{MessageType T}
    (index_entry : IndexEntry) (stream : list ascii) b :
  version_ b ≠ 200 → version_ b ≠ 102 →
  readMessageDataIntoStream index_entry stream b
  = (Throw (BagFormatException ("Unhandled version: " +:+ pretty (version_ b))), b)
  ∧ instantiateBuffer (T:=T) index_entry b
    = (Throw (BagFormatException ("Unhandled version: " +:+ pretty (version_ b))), b).
Proof.
  intros H200 H102. unfold readMessageDataIntoStream, instantiateBuffer.
  rewrite !bind_run. unfold gets.
  destruct (Z.eqb_spec (version_ b) 200); [done|].
  destruct (Z.eqb_spec (version_ b) 102); [done|]. done.
Qed.

Lemma unhandled_version_is_format_error_witness :
  readMessageDataIntoStream (IndexEntry.mk (mkTime 1 0) 4109 0) [] Bag_init
  = (Throw (BagFormatException ("Unhandled version: " +:+ pretty (version_ Bag_init))),
     Bag_init)
  ∧ instantiateBuffer (T:=list ascii) (IndexEntry.mk (mkTime 1 0) 4109 0) Bag_init
    = (Throw (BagFormatException ("Unhandled version: " +:+ pretty (version_ Bag_init))),
       Bag_init).
Proof.
  apply (unhandled_version_is_format_error (list ascii) (IndexEntry.mk (mkTime 1 0) 4109 0)
           [] Bag_init); cbn; lia.
Defined.

(** * The message data record (bag.h, lines 624-664) *)







(** * What a write changes (bag.h, lines 511-622) *)

Ltac frame_side :=
  unfold never, ChunkedFile_write, ChunkedFile_seek, ChunkedFile_read,
    ChunkedFile_stopWrite, ChunkedFile_setWriteMode in *;
  simpl in *;
  repeat match goal with
         | H : _ ∧ _ |- _ => destruct H
         | |- context [if ?c then _ else _] => destruct c; simpl
         | |- context [match ?x with Some _ => _ | None => _ end] => destruct x; simpl
         end;
  repeat match goal with |- _ ∧ _ => split end;
  auto.

(** X7: a write that passes the time check increments the revision of the
    bag by one, modulo 2^32, whether it then returns or throws; no write
    changes the mode, the version or the chunk threshold of the engine. *)
Theorem doWrite_increments_revision topic time msg h b :
  bag_revision_ (doWrite topic time msg h b).2
  = (if Time_ltb time TIME_MIN then bag_revision_ b else wrap32 (bag_revision_ b + 1))
  ∧ mode_ (doWrite topic time msg h b).2 = mode_ b
  ∧ version_ (doWrite topic time msg h b).2 = version_ b
  ∧ chunk_threshold_ (doWrite topic time msg h b).2 = chunk_threshold_ b.
Proof.
  set (P := λ r b', bag_revision_ b' = r ∧ mode_ b' = mode_ b ∧ version_ b' = version_ b
                    ∧ chunk_threshold_ b' = chunk_threshold_ b).
  set (r := if Time_ltb time TIME_MIN then bag_revision_ b
            else wrap32 (bag_revision_ b + 1)).
  enough (hoare (P (bag_revision_ b)) (doWrite topic time msg h) (λ _, P r) (λ _, P r))
    as H.
  { specialize (H b). unfold P in H.
    destruct (doWrite topic time msg h b) as [[a|e] b']; by apply H. }
  unfold doWrite. subst r. destruct (Time_ltb time TIME_MIN).
  { by intros b0 H0. }
  eapply hoare_bind with (Q := λ _, P (wrap32 (bag_revision_ b + 1))).
  { intros b0 (Hr & H0). simpl. unfold P. simpl. rewrite Hr. done. }
  intros [].
  lazymatch goal with |- hoare ?I ?m _ ?E => change (keeps I E m) end.
  unfold P. keeps_auto; frame_side.
Qed.




Ltac true_side := unfold never in *; simpl in *; auto.

Lemma stopWritingChunk_closes :
  hoare (λ _, True) stopWritingChunk (λ _ b', chunk_open_ b' = false) (λ _ _, True).
Proof.
  unfold stopWritingChunk.
  do 8 hoare_keep ltac:(file_cases; true_side).
  by intros b _.
Qed.

Lemma stop_chunk_if_full_bounded :
  hoare (λ _, True) stop_chunk_if_full
    (λ _ b', chunk_open_ b' = true → getChunkOffset b' <= chunk_threshold_ b')
    (λ _ _, True).
Proof.
  unfold stop_chunk_if_full.
  apply hoare_gets. intros chunk_size. apply hoare_gets. intros chunk_threshold.
  destruct (Z.ltb_spec chunk_threshold chunk_size) as [Hlt|Hge].
  - eapply hoare_conseq with (P' := λ _, True) (Q' := λ _ b', chunk_open_ b' = false)
      (E' := λ _ _, True); try done.
    + eapply hoare_bind; [apply stopWritingChunk_closes|]. intros [].
      lazymatch goal with |- hoare ?I ?m _ ?E => change (keeps I E m) end.
      keeps_auto; true_side.
    + intros _ b' Hc Ho. congruence.
  - intros b [[_ Hs] Ht] _. cbn. lia.
Qed.

(** X9: when a write returns, the chunk that is open, if one is, is not
    larger than the chunk threshold: a chunk that has outgrown the threshold
    is closed by the write that made it so. *)
Theorem doWrite_keeps_chunk_within_threshold topic time msg h b b' :
  doWrite topic time msg h b = (Ok tt, b') →
  chunk_open_ b' = true →
  getChunkOffset b' <= chunk_threshold_ b'.
Proof.
  enough (hoare (λ _, True) (doWrite topic time msg h)
            (λ _ b', chunk_open_ b' = true → getChunkOffset b' <= chunk_threshold_ b')
            (λ _ _, True)) as H.
  { intros Hw. specialize (H b I). by rewrite Hw in H. }
  unfold doWrite. destruct (Time_ltb time TIME_MIN); [done|].
  do 8 hoare_keep ltac:(file_cases; true_side).
  apply stop_chunk_if_full_bounded.
Qed.

Lemma doWrite_keeps_chunk_within_threshold_witness :
  getChunkOffset (doWrite (str "/a") (mkTime 5 0) (msg_of (str "x")) None fresh_bag).2
  <= chunk_threshold_ (doWrite (str "/a") (mkTime 5 0) (msg_of (str "x")) None fresh_bag).2.
Proof.
  apply (doWrite_keeps_chunk_within_threshold (str "/a") (mkTime 5 0) (msg_of (str "x")) None
           fresh_bag).
  - vm_compute. reflexivity.
  - vm_compute. reflexivity.
Defined.

(** * The connections of a bag (bag.h, lines 522-589) *)

(** X10: along the writes to a freshly opened bag the engine has one
    connection for each distinct identity it has met, the topic of a write
    without connection header and the header with the topic otherwise, and
    none besides; no entry of [connections_] is a null pointer, and the id
    of a connection is its key. *)
Theorem connections_are_the_distinct_identities b0 ws :
  isOpen b0 = true →
  connections_ b0 = ∅ →
  topic_connection_ids_ b0 = ∅ →
  header_connection_ids_ b0 = ∅ →
  Z.of_nat (length (distinct (conn_key <$> accepted ws))) <= 2 ^ 32 →
  size (connections_ (after_writes ws b0)) = length (distinct (conn_key <$> accepted ws))
  ∧ ∀ i p, connections_ (after_writes ws b0) !! i = Some p →
      ∃ c, p = Some c ∧ ConnectionInfo.id c = i.
Proof.
  intros Ho Hc Ht Hh Hlen.
  assert (ids_inv [] b0) as H0.
  { unfold ids_inv, file_open. rewrite Hc. split_and!; try done.
    - apply NoDup_nil_2.
    - intros k i. destruct k; simpl; rewrite ?Ht, ?Hh, lookup_empty;
        (split; [done|by intros [_ ?]]). }
  pose proof (after_writes_ids ws [] b0 H0 Hlen) as (_ & Hnd & Hsz & Hdom & Hks & Hkey).
  change (foldl _ [] (conn_key <$> accepted ws)) with (distinct (conn_key <$> accepted ws))
    in *.
  split; [done|]. intros i p Hp.
  destruct (Hdom i p Hp) as [Hi0 Hi].
  destruct (lookup_lt_is_Some_2 (distinct (conn_key <$> accepted ws)) (Z.to_nat i))
    as [k Hk]; [lia|].
  destruct (Hks _ _ Hk) as (c & Hc' & Hid & _).
  rewrite Z2Nat.id in Hc', Hid by lia.
  exists c. split; [congruence|done].
Qed.

Lemma connections_are_the_distinct_identities_witness :
  size (connections_ (after_writes four_writes fresh_bag))
  = length (distinct (conn_key <$> accepted four_writes))
  ∧ ∀ i p, connections_ (after_writes four_writes fresh_bag) !! i = Some p →
      ∃ c, p = Some c ∧ ConnectionInfo.id c = i.
Proof.
  apply (connections_are_the_distinct_identities fresh_bag four_writes).
  - vm_compute. reflexivity.
  - vm_compute. reflexivity.
  - vm_compute. reflexivity.
  - vm_compute. reflexivity.
  - vm_compute. discriminate.
Defined.

(** * The connection of a write (bag.h, lines 522-589) *)

Ltac key_side :=
  unfold never, lookup_key, ChunkedFile_write, ChunkedFile_seek, ChunkedFile_read,
    ChunkedFile_stopWrite, ChunkedFile_setWriteMode in *;
  simpl in *;
  repeat match goal with
         | H : _ ∧ _ |- _ => destruct H
         | |- context [if ?c then _ else _] => destruct c; simpl
         | |- context [match ?x with Some _ => _ | None => _ end] => destruct x; simpl
         end;
  repeat match goal with |- _ ∧ _ => split end;
  auto.

Section new_connection.
Context (topic : list ascii) (time : Time) (msg : Message).
Context (h : option (gmap (list ascii) (list ascii))).

Let k : list ascii + gmap (list ascii) (list ascii) :=
  conn_key (mkWriteCall topic time msg h).

Lemma resolve_connection_new X :
  hoare (λ b, lookup_key k b = None ∧ connections_ b = X)
    (resolve_connection topic h)
    (λ r b', r = (None, wrap32 (Z.of_nat (size X)))
             ∧ lookup_key k b' = Some (wrap32 (Z.of_nat (size X))))
    (λ _ _, True).
Proof.
  intros b [Hk HX]. subst k. unfold conn_key, lookup_key, resolve_connection in *.
  cbn [w_connection_header w_topic] in *. destruct h as [h0|].
  - rewrite bind_run. unfold gets. cbn [fst snd]. rewrite Hk.
    rewrite !bind_run. unfold gets, modify. cbn. rewrite HX.
    by rewrite lookup_insert_eq.
  - rewrite bind_run. unfold gets. cbn [fst snd]. rewrite Hk.
    rewrite !bind_run. unfold gets, modify. cbn. rewrite HX.
    by rewrite lookup_insert_eq.
Qed.

Lemma doWrite_new_connection_hoare X :
  hoare (λ b, lookup_key k b = None ∧ connections_ b = X)
    (doWrite topic time msg h)
    (λ _ b',
       lookup_key k b' = Some (wrap32 (Z.of_nat (size X)))
       ∧ connections_ b' !! wrap32 (Z.of_nat (size X))
         = Some (Some (new_connection (wrap32 (Z.of_nat (size X))) topic msg h)))
    (λ _ _, True).
Proof.
  unfold doWrite. destruct (Time_ltb time TIME_MIN); [done|].
  hoare_keep ltac:(subst k; key_side).
  eapply hoare_bind; [apply resolve_connection_new|].
  intros [ci conn_id]. cbv beta iota.
  apply hoare_conseq with
    (P' := λ b, (ci = None ∧ conn_id = wrap32 (Z.of_nat (size X)))
                ∧ lookup_key k b = Some (wrap32 (Z.of_nat (size X))))
    (Q' := λ _ b',
       lookup_key k b' = Some (wrap32 (Z.of_nat (size X)))
       ∧ connections_ b' !! wrap32 (Z.of_nat (size X))
         = Some (Some (new_connection (wrap32 (Z.of_nat (size X))) topic msg h)))
    (E' := λ _ _, True); try done.
  2:{ intros b [Hr Hk]. by simplify_eq. }
  intros b [[-> ->] Hk]. revert b Hk.
  change (hoare (λ b, lookup_key k b = Some (wrap32 (Z.of_nat (size X))))
            (seek 0 ios_end ;;
             modify (λ b, set_file_size_ (ChunkedFile_getOffset (file_ b)) b) ;;
             start_chunk_if_closed time ;;
             connection_info ←
               connection_record_if_new None (wrap32 (Z.of_nat (size X))) topic msg h;
             add_to_indexes connection_info time ;;
             writeMessageDataRecord (wrap32 (Z.of_nat (size X))) time msg ;;
             stop_chunk_if_full)
            (λ _ b',
               lookup_key k b' = Some (wrap32 (Z.of_nat (size X)))
               ∧ connections_ b' !! wrap32 (Z.of_nat (size X))
                 = Some (Some (new_connection (wrap32 (Z.of_nat (size X))) topic msg h)))
            (λ _ _, True)).
  do 3 hoare_keep ltac:(subst k; destruct h; key_side).
  eapply hoare_bind with
    (Q := λ _ b',
       lookup_key k b' = Some (wrap32 (Z.of_nat (size X)))
       ∧ connections_ b' !! wrap32 (Z.of_nat (size X))
         = Some (Some (new_connection (wrap32 (Z.of_nat (size X))) topic msg h))).
  { unfold connection_record_if_new.
    fold (new_connection (wrap32 (Z.of_nat (size X))) topic msg h).
    eapply hoare_bind with
      (Q := λ _ b',
         lookup_key k b' = Some (wrap32 (Z.of_nat (size X)))
         ∧ connections_ b' !! wrap32 (Z.of_nat (size X))
           = Some (Some (new_connection (wrap32 (Z.of_nat (size X))) topic msg h))).
    { intros b Hk. cbn. split; [by destruct k|]. by rewrite lookup_insert_eq. }
    intros [].
    lazymatch goal with |- hoare ?I ?m _ ?E => change (keeps I E m) end.
    keeps_auto; subst k; destruct h; key_side. }
  intros c.
  lazymatch goal with |- hoare ?I ?m _ ?E => change (keeps I E m) end.
  keeps_auto; subst k; destruct h; key_side.
Qed.
End new_connection.

(** X11: the first write of an identity, a topic written without connection
    header or a connection header with its topic, creates the connection with
    the next free id, [connections_.size()]: the connection holds the topic and
    the type, md5sum and definition of the message; its header is the header
    the caller gave, as it was given, without the topic that the lookup key
    carries, or else the header made of the three descriptors. *)
Theorem doWrite_new_connection topic time msg h b b' :
  doWrite topic time msg h b = (Ok tt, b') →
  lookup_key (conn_key (mkWriteCall topic time msg h)) b = None →
  lookup_key (conn_key (mkWriteCall topic time msg h)) b'
  = Some (wrap32 (Z.of_nat (size (connections_ b))))
  ∧ connections_ b' !! wrap32 (Z.of_nat (size (connections_ b)))
    = Some (Some (ConnectionInfo.mk (wrap32 (Z.of_nat (size (connections_ b)))) topic
                    (msg_datatype msg) (msg_md5sum msg) (msg_definition msg)
                    (match h with
                     | Some h0 => h0
                     | None => manufactured_header (msg_datatype msg) (msg_md5sum msg)
                                 (msg_definition msg)
                     end))).
Proof.
  intros Hw Hk.
  pose proof (doWrite_new_connection_hoare topic time msg h (connections_ b) b
                (conj Hk eq_refl)) as H.
  by rewrite Hw in H.
Qed.

Lemma doWrite_new_connection_witness :
  lookup_key (conn_key (mkWriteCall (str "/b") (mkTime 6 0) (msg_of (str "y"))
                          (Some caller_header)))
    (doWrite (str "/b") (mkTime 6 0) (msg_of (str "y")) (Some caller_header) fresh_bag).2
  = Some (wrap32 (Z.of_nat (size (connections_ fresh_bag))))
  ∧ connections_
      (doWrite (str "/b") (mkTime 6 0) (msg_of (str "y")) (Some caller_header) fresh_bag).2
    !! wrap32 (Z.of_nat (size (connections_ fresh_bag)))
    = Some (Some (ConnectionInfo.mk (wrap32 (Z.of_nat (size (connections_ fresh_bag))))
                    (str "/b") (msg_datatype (msg_of (str "y")))
                    (msg_md5sum (msg_of (str "y"))) (msg_definition (msg_of (str "y")))
                    caller_header)).
Proof.
  apply (doWrite_new_connection (str "/b") (mkTime 6 0) (msg_of (str "y"))
           (Some caller_header) fresh_bag).
  - vm_compute. reflexivity.
  - vm_compute. reflexivity.
Defined.

Section known_connection.
Context (topic : list ascii) (time : Time) (msg : Message).
Context (h : option (gmap (list ascii) (list ascii))).
Context (X : gmap Z (option ConnectionInfo)).
Context (T : gmap (list ascii) Z) (H : gmap (gmap (list ascii) (list ascii)) Z).

Let same (b : Bag) : Prop :=
  connections_ b = X ∧ topic_connection_ids_ b = T ∧ header_connection_ids_ b = H.

Let known : option Z :=
  match h with
  | None => T !! topic
  | Some h0 => H !! connection_header_key topic h0
  end.

Lemma resolve_connection_known id c :
  known = Some id →
  X !! id = Some (Some c) →
  hoare same (resolve_connection topic h) (λ r b', r = (Some c, id) ∧ same b') (λ _, same).
Proof.
  subst known. intros Hk Hc b (HX & HT & HH).
  unfold resolve_connection. destruct h as [h0|].
  - rewrite bind_run. unfold gets. cbn [fst snd]. rewrite HH, Hk.
    rewrite bind_run. unfold connections_at. rewrite HX, Hc. cbv beta iota.
    by repeat split.
  - rewrite bind_run. unfold gets. cbn [fst snd]. rewrite HT, Hk.
    rewrite bind_run. unfold connections_at. rewrite HX, Hc. cbv beta iota.
    by repeat split.
Qed.

Lemma doWrite_known_connection_hoare id c :
  known = Some id →
  X !! id = Some (Some c) →
  hoare same (doWrite topic time msg h) (λ _, same) (λ _, same).
Proof.
  intros Hk Hc. unfold doWrite. destruct (Time_ltb time TIME_MIN); [by intros b0 H0|].
  hoare_keep ltac:(subst same; key_side).
  eapply hoare_bind; [by apply (resolve_connection_known id c)|].
  intros [ci conn_id]. cbv beta iota.
  apply hoare_conseq with (P' := λ b, ci = Some c ∧ same b) (Q' := λ _, same)
    (E' := λ _, same); try done.
  2:{ intros b [Hr Hs]. by simplify_eq. }
  intros b [-> Hs]. revert b Hs.
  lazymatch goal with |- ∀ b, same b → match ?m b with _ => _ end =>
    change (keeps same (λ _, same) m) end.
  keeps_auto; subst same; key_side.
Qed.
End known_connection.

(** X12: a write for an identity the engine knows reuses its connection: it
    makes no new connection and leaves [connections_] and both maps of
    connection ids as they were, whatever its outcome. *)
Theorem doWrite_known_connection topic time msg h b id c :
  lookup_key (conn_key (mkWriteCall topic time msg h)) b = Some id →
  connections_ b !! id = Some (Some c) →
  connections_ (doWrite topic time msg h b).2 = connections_ b
  ∧ topic_connection_ids_ (doWrite topic time msg h b).2 = topic_connection_ids_ b
  ∧ header_connection_ids_ (doWrite topic time msg h b).2 = header_connection_ids_ b.
Proof.
  intros Hk Hc.
  pose proof (doWrite_known_connection_hoare topic time msg h (connections_ b)
                (topic_connection_ids_ b) (header_connection_ids_ b) id c) as Hh.
  unfold conn_key, lookup_key in Hk. cbn [w_connection_header w_topic] in Hk.
  assert (match h with
          | None => topic_connection_ids_ b !! topic
          | Some h0 => header_connection_ids_ b !! connection_header_key topic h0
          end = Some id) as Hk' by by destruct h.
  specialize (Hh Hk' Hc b (conj eq_refl (conj eq_refl eq_refl))).
  by destruct (doWrite topic time msg h b) as [[a|e] b'].
Qed.

Lemma doWrite_known_connection_witness :
  connections_ (doWrite (str "/a") (mkTime 7 0) (msg_of (str "y")) None one_write_bag).2
  = connections_ one_write_bag
  ∧ topic_connection_ids_
      (doWrite (str "/a") (mkTime 7 0) (msg_of (str "y")) None one_write_bag).2
    = topic_connection_ids_ one_write_bag
  ∧ header_connection_ids_
      (doWrite (str "/a") (mkTime 7 0) (msg_of (str "y")) None one_write_bag).2
    = header_connection_ids_ one_write_bag.
Proof.
  apply (doWrite_known_connection (str "/a") (mkTime 7 0) (msg_of (str "y")) None
           one_write_bag 0 (new_connection 0 (str "/a") (msg_of (str "x")) None)).
  - vm_compute. reflexivity.
  - vm_compute. reflexivity.
Defined.

(** * The counts of the open chunk (bag.h, lines 591-606) *)

Lemma length_mset_insert x l : length (mset_insert x l) = S (length l).
Proof.
  induction l as [|y l IH]; [done|]. cbn [mset_insert].
  destruct (IndexEntry.ltb x y); cbn [length]; [done|]. by rewrite IH.
Qed.

Lemma wrap32_succ n : wrap32 (wrap32 (Z.of_nat n) + 1) = wrap32 (Z.of_nat (S n)).
Proof.
  unfold wrap32. rewrite Nat2Z.inj_succ, Z.add_mod_idemp_l by lia. done.
Qed.

Lemma add_to_indexes_counts c time :
  hoare (λ b, file_open b ∧ chunk_open_ b = true ∧ counts_match b)
    (add_to_indexes c time)
    (λ _ b, file_open b ∧ chunk_open_ b = true ∧ counts_match b) never.
Proof.
  intros b (Ho & Hc & Hm). unfold counts_match in *. rewrite Hc in Hm.
  unfold add_to_indexes. run_simpl.
  destruct (decide (mode_ b ≠ Write)); run_simpl; rewrite Hc;
    (split; [done|]; split; [done|]); intros id; unfold index_insert.
  all: (destruct (decide (ConnectionInfo.id c = id)) as [<-|Hne];
     [ rewrite !lookup_insert_eq; cbn [from_option id]; rewrite Hm, length_mset_insert;
       apply wrap32_succ
     | rewrite !lookup_insert_ne by done; apply Hm ]).
Qed.

Ltac counts_side :=
  unfold counts_match, file_open, isOpen, ChunkedFile_write, ChunkedFile_seek,
    ChunkedFile_stopWrite, ChunkedFile_setWriteMode, never in *;
  simpl in *;
  rewrite ?update_chunk_time_range_counts;
  repeat match goal with
         | H : _ ∧ _ |- _ => destruct H
         | H : cf_open ?f = true |- context [cf_open ?f] => rewrite H; simpl
         | H : chunk_open_ ?b = true |- context [chunk_open_ ?b] => rewrite H; simpl
         | H : chunk_open_ ?b = true, H' : context [chunk_open_ ?b] |- _ =>
             rewrite H in H'; simpl in H'
         end;
  repeat match goal with |- _ ∧ _ => split end;
  auto.

Lemma start_chunk_if_closed_counts time :
  hoare (λ b, file_open b ∧ counts_match b) (start_chunk_if_closed time)
    (λ _ b, file_open b ∧ chunk_open_ b = true ∧ counts_match b) never.
Proof.
  unfold start_chunk_if_closed. apply hoare_gets. intros [|].
  - intros b [[Ho Hm] Hc]. cbn. done.
  - intros b [[Ho Hm] Hc].
    unfold startWritingChunk, writeChunkHeader, writeHeader, writeDataLength, write,
      ChunkedFile_write. run_simpl.
    unfold file_open, isOpen in Ho. rewrite Ho. simpl.
    unfold counts_match in *. rewrite Hc in Hm. simpl.
    split; [done|]. split; [done|]. intros id.
    rewrite update_chunk_time_range_counts. simpl.
    by rewrite Hm, !lookup_empty.
Qed.

Lemma stopWritingChunk_counts :
  hoare file_open stopWritingChunk (λ _ b, file_open b ∧ counts_match b) never.
Proof.
  unfold stopWritingChunk.
  do 7 hoare_keep counts_side.
  intros b Ho. by cbn.
Qed.

Lemma stop_chunk_if_full_counts :
  hoare (λ b, file_open b ∧ chunk_open_ b = true ∧ counts_match b) stop_chunk_if_full
    (λ _ b, file_open b ∧ counts_match b) never.
Proof.
  unfold stop_chunk_if_full.
  apply hoare_gets. intros chunk_size. apply hoare_gets. intros chunk_threshold.
  destruct (chunk_threshold <? chunk_size).
  - eapply hoare_conseq with (P' := file_open) (Q' := λ _ b, file_open b ∧ counts_match b)
      (E' := never); try done.
    + eapply hoare_bind; [apply stopWritingChunk_counts|]. intros [].
      lazymatch goal with |- hoare ?I ?m _ ?E => change (keeps I E m) end.
      keeps_auto; counts_side.
    + by intros b [[[Ho _] _] _].
  - intros b [[(Ho & Hc & Hm) _] _]. by cbn.
Qed.

Lemma doWrite_counts topic time msg h :
  Time_ltb time TIME_MIN = false →
  hoare (λ b, file_open b ∧ counts_match b) (doWrite topic time msg h)
    (λ _ b, file_open b ∧ counts_match b) never.
Proof.
  intros Ht. unfold doWrite. rewrite Ht.
  do 4 hoare_keep counts_side.
  eapply hoare_bind; [apply start_chunk_if_closed_counts|]. intros [].
  hoare_keep counts_side.
  eapply hoare_bind; [apply add_to_indexes_counts|]. intros e.
  hoare_keep counts_side.
  apply stop_chunk_if_full_counts.
Qed.

Lemma after_writes_counts ws b :
  file_open b → counts_match b →
  file_open (after_writes ws b) ∧ counts_match (after_writes ws b).
Proof.
  revert b. induction ws as [|w ws IH]; intros b Ho Hm; [done|].
  cbn [after_writes foldl]. fold (after_writes ws (write_call w b).2).
  destruct (Time_ltb (w_time w) TIME_MIN) eqn:Ht.
  - assert (write_call w b = (Throw (BagException
              "Tried to insert a message with time less than ros::TIME_MIN"), b)) as ->.
    { unfold write_call, Bag_write, doWrite. by rewrite Ht. }
    by apply IH.
  - pose proof (doWrite_counts (w_topic w) (w_time w) (w_msg w) (w_connection_header w)
                  Ht b (conj Ho Hm)) as H.
    unfold write_call, Bag_write.
    destruct (doWrite (w_topic w) (w_time w) (w_msg w) (w_connection_header w) b)
      as [[[]|e] b']; [|done].
    destruct H. by apply IH.
Qed.

(** X13: along the writes to an open bag, the number of messages that the
    chunk info of the open chunk counts for a connection is, in 32 bits, the
    number of entries the index of the open chunk has for it; while no chunk
    is open, that index is empty. *)
Theorem chunk_counts_match_index b0 ws :
  isOpen b0 = true →
  chunk_open_ b0 = false →
  curr_chunk_connection_indexes_ b0 = ∅ →
  counts_match (after_writes ws b0).
Proof.
  intros Ho Hc Hi. apply after_writes_counts; [done|].
  unfold counts_match. by rewrite Hc.
Qed.

Lemma chunk_counts_match_index_witness :
  counts_match (after_writes three_writes fresh_bag).
Proof.
  apply (chunk_counts_match_index fresh_bag three_writes).
  - vm_compute. reflexivity.
  - vm_compute. reflexivity.
  - vm_compute. reflexivity.
Defined.

(** * Reading a record back (bag.h, lines 398-461) *)

Lemma readHeaderFromBuffer_record (pre post : list ascii) fields n :
  good_names fields →
  Z.of_nat (fields_length fields) < 2 ^ 32 →
  readHeaderFromBuffer (pre ++ header_bytes fields ++ le_bytes 4 n ++ post)
    (Z.of_nat (length pre))
  = Ok (fields, n mod 2 ^ 32, wrap32 (4 + Z.of_nat (fields_length fields) + 4)).
Proof.
  intros Hgood Hlen. unfold readHeaderFromBuffer. rewrite Nat2Z.id.
  rewrite drop_app_length. cbv zeta.
  unfold header_bytes. rewrite <- !(assoc_L (++)).
  set (fb := encode_fields fields).
  assert (length fb = fields_length fields) as Hfb by apply length_encode_fields.
  destruct (Nat.ltb_spec (length (le_bytes 4 (Z.of_nat (length fb)) ++ fb ++ le_bytes 4 n ++ post)) 4)
    as [Hshort|_].
  { rewrite length_app, length_le_bytes in Hshort. lia. }
  rewrite (take_app_length' (le_bytes 4 _)) by by rewrite length_le_bytes.
  rewrite le_value_le_bytes_4 by lia. rewrite Nat2Z.id.
  rewrite (drop_app_length' (le_bytes 4 (Z.of_nat (length fb)))) by by rewrite length_le_bytes.
  rewrite take_app_length.
  replace (drop (4 + length fb) (le_bytes 4 (Z.of_nat (length fb)) ++ fb ++ le_bytes 4 n ++ post))
    with (le_bytes 4 n ++ post).
  2:{ rewrite (assoc_L (++) (le_bytes 4 _) fb). symmetry. apply drop_app_length'.
      by rewrite length_app, length_le_bytes. }
  destruct (Z.ltb_spec (Z.of_nat (length fb)) (Z.of_nat (length fb))); [lia|].
  destruct (Nat.ltb_spec (length (le_bytes 4 n ++ post)) 4) as [Hshort|_].
  { rewrite length_app, length_le_bytes in Hshort. lia. }
  cbn [orb]. unfold fb. rewrite Header_parse_encode by done.
  rewrite (take_app_length' (le_bytes 4 n)) by by rewrite length_le_bytes.
  rewrite le_value_le_bytes. fold fb. rewrite Hfb. done.
Qed.

Lemma isOp_op fields (op reqOp : Z) :
  0 <= op < 256 →
  fields !! OP_FIELD_NAME = Some (toHeaderString 1 op) →
  isOp fields reqOp = Ok (op =? reqOp).
Proof.
  intros Hop Hl. unfold isOp, required, readField.
  rewrite (checkField_value _ _ (toHeaderString 1 op)); [|done|].
  2:{ rewrite length_toHeaderString. lia. }
  unfold mbind, outcome_bind, mret, outcome_ret. cbn [from_option id].
  unfold toHeaderString. rewrite take_ge by (rewrite length_le_bytes; lia).
  by rewrite le_value_le_bytes_1.
Qed.

Lemma fields_length_message_data conn_id time :
  fields_length (message_data_fields conn_id time) = 38%nat.
Proof.
  unfold message_data_fields. fields_length_simpl.
  rewrite !length_toHeaderString, length_toHeaderString_Time. reflexivity.
Qed.

Lemma readMessageDataHeaderFromBuffer_record (pre post data : list ascii) conn_id time :
  Z.of_nat (length data) < 2 ^ 32 →
  readMessageDataHeaderFromBuffer (pre ++ message_record conn_id time data ++ post)
    (Z.of_nat (length pre))
  = Ok (message_data_fields conn_id time, Z.of_nat (length data), 46).
Proof.
  intros Hlen. unfold readMessageDataHeaderFromBuffer, message_record.
  rewrite <- !(assoc_L (++)).
  rewrite readHeaderFromBuffer_record.
  - unfold mbind, outcome_bind, mret, outcome_ret.
    rewrite (isOp_op _ OP_MSG_DATA).
    + rewrite Z.eqb_refl, fields_length_message_data.
      rewrite Z.mod_small by lia. done.
    + unfold OP_MSG_DATA. lia.
    + unfold message_data_fields. by lookup_field.
  - unfold message_data_fields. good_names_auto.
  - rewrite fields_length_message_data. lia.
Qed.

Lemma message_record_payload (pre post data : list ascii) conn_id time :
  take (length data)
    (drop (Z.to_nat (Z.of_nat (length pre) + 46))
       (pre ++ message_record conn_id time data ++ post))
  = data.
Proof.
  replace (Z.to_nat (Z.of_nat (length pre) + 46)) with (length pre + 46)%nat by lia.
  rewrite drop_app_add. unfold message_record.
  rewrite (assoc_L (++) (header_bytes _)), <- (assoc_L (++) _ data).
  rewrite drop_app_length'; [apply take_app_length|].
  rewrite length_app, length_header_bytes, length_le_bytes, fields_length_message_data.
  reflexivity.
Qed.

(** X14: a message data record is read back as it was written: when the
    chunk of an index entry is in the current buffer and the buffer holds, at
    the offset of the entry, the record that [writeMessageDataRecord] writes
    for a payload, [readMessageDataIntoStream] puts exactly the payload at the
    end of the stream, whatever follows the record in the buffer. *)
Theorem readMessageDataIntoStream_reads_record index_entry (stream : list ascii) b b1
    (pre post data : list ascii) conn_id time :
  version_ b = 200 →
  decompressChunk (IndexEntry.chunk_pos index_entry) b = (Ok tt, b1) →
  current_buffer b1 = pre ++ message_record conn_id time data ++ post →
  IndexEntry.offset index_entry = Z.of_nat (length pre) →
  Z.of_nat (length data) < 2 ^ 32 →
  readMessageDataIntoStream index_entry stream b = (Ok (stream ++ data), b1).
Proof.
  intros Hv Hd Hb Ho Hlen. unfold readMessageDataIntoStream.
  rewrite bind_run. unfold gets at 1. rewrite Hv. cbn [Z.eqb Pos.eqb].
  rewrite bind_run, Hd. rewrite bind_run. unfold gets at 1. rewrite Hb, Ho.
  rewrite bind_run. unfold lift.
  rewrite readMessageDataHeaderFromBuffer_record by done.
  destruct (Z.ltb_spec 0 (Z.of_nat (length data))) as [Hpos|Hzero].
  - unfold mret, M_ret. rewrite Nat2Z.id. by rewrite message_record_payload.
  - destruct data; [|cbn [length] in Hzero; lia].
    unfold mret, M_ret. by rewrite (right_id_L [] (++)).
Qed.

Lemma readMessageDataIntoStream_reads_record_witness :
  readMessageDataIntoStream
    (IndexEntry.mk (mkTime 5 0) 4109
       (Z.of_nat (length (connection_record
                            (new_connection 0 (str "/a") (msg_of (str "x")) None)))))
    (str "so far: ") (reader_of one_write_bag)
  = (Ok (str "so far: " ++ str "x"), reader_of one_write_bag).
Proof.
  apply (readMessageDataIntoStream_reads_record _ _ (reader_of one_write_bag)
           (reader_of one_write_bag)
           (connection_record (new_connection 0 (str "/a") (msg_of (str "x")) None))
           [] (str "x") 0 (mkTime 5 0)).
  - vm_compute. reflexivity.
  - vm_compute. reflexivity.
  - vm_compute. reflexivity.
  - vm_compute. reflexivity.
  - vm_compute. reflexivity.
Defined.

(** X15: [instantiateBuffer] decodes the record that [writeMessageDataRecord]
    writes: with the chunk of the index entry in the current buffer and the
    record at the offset of the entry, it finds the connection of the [conn]
    field of the record and returns the message deserialized from exactly the
    payload, with the header of that connection. *)
Theorem instantiateBuffer_reads_record (T : Type) `{MessageType T} index_entry b b1
    (pre post data : list ascii) conn_id time c :
  version_ b = 200 →
  decompressChunk (IndexEntry.chunk_pos index_entry) b = (Ok tt, b1) →
  current_buffer b1 = pre ++ message_record conn_id time data ++ post →
  IndexEntry.offset index_entry = Z.of_nat (length pre) →
  Z.of_nat (length data) < 2 ^ 32 →
  0 <= conn_id < 2 ^ 32 →
  connections_ b1 !! conn_id = Some (Some c) →
  instantiateBuffer (T:=T) index_entry b
  = (Ok (Some (deserialize (ConnectionInfo.header c) data)), b1).
Proof.
  intros Hv Hd Hb Ho Hlen Hid Hc. unfold instantiateBuffer.
  rewrite bind_run. unfold gets at 1. rewrite Hv. cbn [Z.eqb Pos.eqb].
  rewrite bind_run, Hd. rewrite bind_run. unfold gets at 1. rewrite Hb, Ho.
  rewrite bind_run. unfold lift at 1.
  rewrite readMessageDataHeaderFromBuffer_record by done.
  rewrite bind_run. unfold lift at 1.
  assert (required 0 (readField 4 (message_data_fields conn_id time) CONNECTION_FIELD_NAME true)
          = Ok conn_id) as ->.
  { unfold required, readField.
    rewrite (checkField_value _ _ (toHeaderString 4 conn_id)).
    - unfold mbind, outcome_bind, mret, outcome_ret. cbn [from_option id].
      unfold toHeaderString. rewrite take_ge by (rewrite length_le_bytes; lia).
      by rewrite le_value_le_bytes_4.
    - unfold message_data_fields. by lookup_field.
    - rewrite length_toHeaderString. lia. }
  rewrite bind_run. unfold gets at 1. rewrite Hc.
  rewrite bind_run. unfold deref, mret, M_ret.
  rewrite Nat2Z.id. by rewrite message_record_payload.
Qed.

Lemma instantiateBuffer_reads_record_witness :
  instantiateBuffer (T:=list ascii)
    (IndexEntry.mk (mkTime 5 0) 4109
       (Z.of_nat (length (connection_record
                            (new_connection 0 (str "/a") (msg_of (str "x")) None)))))
    (reader_of one_write_bag)
  = (Ok (Some (deserialize
                 (ConnectionInfo.header (new_connection 0 (str "/a") (msg_of (str "x")) None))
                 (str "x"))),
     reader_of one_write_bag).
Proof.
  apply (instantiateBuffer_reads_record (list ascii) _ (reader_of one_write_bag)
           (reader_of one_write_bag)
           (connection_record (new_connection 0 (str "/a") (msg_of (str "x")) None))
           [] (str "x") 0 (mkTime 5 0)
           (new_connection 0 (str "/a") (msg_of (str "x")) None)).
  - vm_compute. reflexivity.
  - vm_compute. reflexivity.
  - vm_compute. reflexivity.
  - vm_compute. reflexivity.
  - vm_compute. reflexivity.
  - lia.
  - vm_compute. reflexivity.
Defined.
